(** * pasv-test-irqbalance: a shallow embedding of the probe script

    The script [pasv-test-irqbalance.py] checks that the irqbalance daemon is
    installed and running.  Two parts of it interpret data: the scan of the
    executable for a list of markers, and the parser of [/proc/interrupts]
    with the per-CPU sum that follows it.  Both are embedded here, together
    with the helper [read_one_line].

    Conventions of the embedding.
    - A Python [str] is a [string]; every character stands for the code
      point of the same number, so the texts covered are those with code
      points below 256.
    - A Python [bytes] value, and the mapped executable, is a [list byte].
    - A Python [int] is a [Z]; list indices, which the script only produces
      by counting up from zero, are [nat].
    - A call that may raise returns a [res]: [Ok v] or [Raise e].
    - The [dict] returned by the parser keeps its keys in insertion order;
      it is an association list with unique keys.
    - [print] appends a line to a list of output lines. *)

From Stdlib Require Import ZArith Ascii String.
From Stdlib Require Strings.Byte.
From Stdlib Require DecimalString.
From stdpp Require Import base tactics option list strings.

Local Open Scope string_scope.
Local Open Scope list_scope.
Local Open Scope nat_scope.

(** ** Exceptions *)

Inductive exn : Type :=
| ValueError (arg : string)
| IndexError
| TypeError
| KeyError (key : string)
| NameError (name : string)
| OSError
| UnicodeDecodeError.

Inductive res (A : Type) : Type :=
| Ok (a : A)
| Raise (e : exn).
Arguments Ok {A} a.
Arguments Raise {A} e.

#[global] Instance res_ret : MRet res := fun A a => Ok a.

#[global] Instance res_bind : MBind res := fun A B k r =>
  match r with
  | Ok a => k a
  | Raise e => Raise e
  end.

(** ** Text primitives *)

Definition LF : ascii := ascii_of_nat 10.
Definition CR : ascii := ascii_of_nat 13.

(** [str.isspace] on one character.  Below code point 256 the characters
    Python takes for whitespace are 9 to 13, 28 to 32, 133 and 160. *)
Definition isspace (c : ascii) : bool :=
  let n := nat_of_ascii c in
  ((9 <=? n) && (n <=? 13)) || ((28 <=? n) && (n <=? 32))
  || (n =? 133) || (n =? 160).

Definition is_empty (s : string) : bool :=
  match s with
  | EmptyString => true
  | String _ _ => false
  end.

(** The word collected so far becomes a token unless it is empty. *)
Definition flush (word : string) : list string :=
  if is_empty word then [] else [word].

(** [s.split()] with no argument: maximal runs of characters that are not
    whitespace, in order. *)
Fixpoint split_from (word s : string) : list string :=
  match s with
  | EmptyString => flush word
  | String c s' =>
      if isspace c then flush word ++ split_from "" s'
      else split_from (word +:+ String c "") s'
  end.

Definition split (s : string) : list string := split_from "" s.

(** [s.lstrip(chars)], [s.rstrip(chars)] and [s.strip(chars)], with the set
    of characters to drop given as a test. *)
Fixpoint lstrip (drop : ascii -> bool) (s : string) : string :=
  match s with
  | EmptyString => ""
  | String c s' => if drop c then lstrip drop s' else s
  end.

Fixpoint rstrip (drop : ascii -> bool) (s : string) : string :=
  match s with
  | EmptyString => ""
  | String c s' =>
      let r := rstrip drop s' in
      if is_empty r && drop c then "" else String c r
  end.

Definition strip (drop : ascii -> bool) (s : string) : string :=
  rstrip drop (lstrip drop s).

(** ** Text files

    A file opened in text mode hands out lines.  With universal newlines
    (the default of [io.open]) a line ends at LF, at CR or at CR LF, and the
    ending is handed out as a single LF; the last line may lack it. *)
Fixpoint lines_from (cur s : string) : list string :=
  match s with
  | EmptyString => flush cur
  | String c s' =>
      if Ascii.eqb c LF then (cur +:+ String LF "") :: lines_from "" s'
      else if Ascii.eqb c CR then
        match s' with
        | String c' s'' =>
            if Ascii.eqb c' LF then (cur +:+ String LF "") :: lines_from "" s''
            else (cur +:+ String LF "") :: lines_from "" s'
        | EmptyString => [cur +:+ String LF ""]
        end
      else lines_from (cur +:+ String c "") s'
  end.

(** The state of an open text file: the lines not read yet. *)
Definition file : Type := list string.

Definition io_open (text : string) : file := lines_from "" text.

(** [f.readline()]: the next line, or the empty string at end of file. *)
Definition readline (f : file) : string * file :=
  match f with
  | [] => ("", [])
  | l :: f' => (l, f')
  end.

(** ** [int(x)] on a token

    An optional sign, then decimal digits; one underscore may stand between
    two digits.  The interpreter (from version 3.11 on, with its default
    setting) refuses literals of more than [int_max_str_digits] digits.  The whitespace [int] would strip is not
    modelled: the tokens the parser converts come out of [split] and hold
    none (lemma [split_tokens] below). *)
Definition int_max_str_digits : nat := 4300.

Definition digit_value (c : ascii) : option Z :=
  let n := nat_of_ascii c in
  if (48 <=? n) && (n <=? 57) then Some (Z.of_nat (n - 48)) else None.

Fixpoint digits_from (after_digit : bool) (acc : Z) (count : nat) (s : string)
  : option (Z * nat) :=
  match s with
  | EmptyString => if after_digit then Some (acc, count) else None
  | String c s' =>
      match digit_value c with
      | Some d => digits_from true (acc * 10 + d) (S count) s'
      | None =>
          if Ascii.eqb c "_" && after_digit then digits_from false acc count s'
          else None
      end
  end.

Definition magnitude (s : string) : option Z :=
  match digits_from false 0 0 s with
  | Some (v, count) => if count <=? int_max_str_digits then Some v else None
  | None => None
  end.

Definition int_opt (s : string) : option Z :=
  match s with
  | String "-" s' => Z.opp <$> magnitude s'
  | String "+" s' => magnitude s'
  | _ => magnitude s
  end.

Definition int (x : string) : res Z :=
  match int_opt x with
  | Some v => Ok v
  | None => Raise (ValueError x)
  end.


(** The comprehension [[ int(x) for x in xs ]]: conversions run from left to
    right and the first failure is raised. *)
Fixpoint int_each (xs : list string) : res (list Z) :=
  match xs with
  | [] => Ok []
  | x :: xs' => v ← int x; vs ← int_each xs'; Ok (v :: vs)
  end.

(** ** Lists and dicts *)

(** [l[i]] for an index counted from zero. *)
Definition list_getitem {A : Type} (l : list A) (i : nat) : res A :=
  match l !! i with
  | Some x => Ok x
  | None => Raise IndexError
  end.

(** [l[start:stop]] for bounds that are not negative. *)
Definition slice {A : Type} (l : list A) (start stop : nat) : list A :=
  take (stop - start) (drop start l).

Definition dict : Type := list (string * list Z).

(** [d[k] = v]: a key already present keeps its place, a new key goes last. *)
Fixpoint dict_setitem (d : dict) (k : string) (v : list Z) : dict :=
  match d with
  | [] => [(k, v)]
  | (k', v') :: d' =>
      if String.eqb k' k then (k, v) :: d' else (k', v') :: dict_setitem d' k v
  end.

(** [d[k]]. *)
Fixpoint dict_getitem (d : dict) (k : string) : res (list Z) :=
  match d with
  | [] => Raise (KeyError k)
  | (k', v') :: d' => if String.eqb k' k then Ok v' else dict_getitem d' k
  end.

Definition dict_keys (d : dict) : list string := d.*1.

(** ** [get_irq_statistics] *)

(** What one pass through the body of [while f:] leads to. *)
Inductive flow : Type :=
| Continue (f : file) (result : dict)
| Break (result : dict).

Definition while_body (cpu_count : nat) (f : file) (result : dict) : res flow :=
  let '(line, f) := readline f in
  let columns := split line in
  if length columns <=? 1 then Ok (Break result)
  else
    c0 ← list_getitem columns 0;
    let irq_name := strip (Ascii.eqb ":") c0 in
    if String.eqb irq_name "ERR" || String.eqb irq_name "MIS"
    then Ok (Continue f result)
    else
      irqs_per_cpu ← int_each (slice columns 1 cpu_count);
      Ok (Continue f (dict_setitem result irq_name irqs_per_cpu)).

(** The loop [while f:].  A file object is always true, so the loop ends by
    [break] or by an exception only; [None] means the fuel ran out. *)
Fixpoint while_loop (fuel cpu_count : nat) (f : file) (result : dict)
  : option (res dict) :=
  match fuel with
  | O => None
  | S fuel' =>
      match while_body cpu_count f result with
      | Raise e => Some (Raise e)
      | Ok (Break result') => Some (Ok result')
      | Ok (Continue f' result') => while_loop fuel' cpu_count f' result'
      end
  end.

(** The function, on the text of [/proc/interrupts].  The loop gets one
    round per line left after the header and one more for the end of the
    file; [while_loop_total] shows that this is enough. *)
Definition get_irq_statistics (text : string) : option (res dict) :=
  let result := [] in
  let f := io_open text in
  let '(l, f) := readline f in
  let cpu_list := split l in
  let cpu_count := length cpu_list in
  while_loop (S (length f)) cpu_count f result.

(** ** [count_nonzero_values] and [get_nonzero_index] *)

Fixpoint count_nonzero_from (count : Z) (vec : list Z) : Z :=
  match vec with
  | [] => count
  | x :: vec' =>
      if negb (x =? 0)%Z then count_nonzero_from (count + 1) vec'
      else count_nonzero_from count vec'
  end.

Definition count_nonzero_values (vec : list Z) : Z := count_nonzero_from 0 vec.

(** Falling off the end of the function returns [None]. *)
Fixpoint get_nonzero_index_from (index : nat) (vec : list Z) : option nat :=
  match vec with
  | [] => None
  | x :: vec' =>
      if negb (x =? 0)%Z then Some index
      else get_nonzero_index_from (index + 1) vec'
  end.

Definition get_nonzero_index (vec : list Z) : option nat :=
  get_nonzero_index_from 0 vec.

(** ** The sum of the exclusive interrupts per CPU (end of the script) *)

(** The body of [for irq in irqs:].  [irqs_per_cpu[cpu_index]] is read
    before the right-hand side of [+=] and written after it; an index of
    [None] is a [TypeError]. *)
Definition for_body (irqs : dict) (irqs_per_cpu : list Z) (irq : string)
  : res (list Z) :=
  vec ← dict_getitem irqs irq;
  if (count_nonzero_values vec =? 1)%Z then
    vec ← dict_getitem irqs irq;
    match get_nonzero_index vec with
    | None => Raise TypeError
    | Some cpu_index =>
        old ← list_getitem irqs_per_cpu cpu_index;
        vec ← dict_getitem irqs irq;
        v ← list_getitem vec cpu_index;
        Ok (<[cpu_index := (old + v)%Z]> irqs_per_cpu)
    end
  else Ok irqs_per_cpu.

Fixpoint for_loop (irqs : dict) (keys : list string) (irqs_per_cpu : list Z)
  : res (list Z) :=
  match keys with
  | [] => Ok irqs_per_cpu
  | irq :: keys' =>
      irqs_per_cpu' ← for_body irqs irqs_per_cpu irq;
      for_loop irqs keys' irqs_per_cpu'
  end.

(** Lines 159 to 163, from the dict and [cpu_count = os.cpu_count()]. *)
Definition exclusive_load (cpu_count : nat) (irqs : dict) : res (list Z) :=
  let irqs_per_cpu := replicate cpu_count 0%Z in
  for_loop irqs (dict_keys irqs) irqs_per_cpu.

(** Lines 158 to 163, from the text of [/proc/interrupts]. *)
Definition main_irqs (cpu_count : nat) (text : string) : option (res (list Z)) :=
  match get_irq_statistics text with
  | None => None
  | Some r => Some (irqs ← r; exclusive_load cpu_count irqs)
  end.

(** ** Constants of the script *)

Definition OK_ICON : string := "[ OK ] ".
Definition FAIL_ICON : string := "[FAIL] ".
Definition INFO_ICON : string := "[INFO] ".
Definition SKIP_ICON : string := "[SKIP] ".

Definition IRQBALANCE_PATH : string := "/usr/sbin/irqbalance".

Definition MARKERS : list string :=
  [ "libcap-ng.so.0"; "libnuma.so.1"; "/sys/devices/system/cpu";
    "%s/topology/core_siblings"; "/proc/interrupts"; "/proc/irq/%i/node";
    "g_main_loop_run"; "g_list_append";
    "irqbalance" ].

(** [print(line)]: the output is the list of the lines printed so far. *)
Definition print (out : list string) (line : string) : list string :=
  out ++ [line].

(** ** The marker scan *)

Abbreviation byte := Init.Byte.byte.

(** [bytes(s, "utf-8")] for code points below 256: one byte below 128, two
    bytes from there on. *)
Definition utf8_char (c : ascii) : list byte :=
  let n := nat_of_ascii c in
  if n <? 128 then [byte_of_ascii c]
  else [ byte_of_ascii (ascii_of_nat (192 + n / 64));
         byte_of_ascii (ascii_of_nat (128 + n mod 64)) ].

Fixpoint bytes_utf8 (s : string) : list byte :=
  match s with
  | EmptyString => []
  | String c s' => utf8_char c ++ bytes_utf8 s'
  end.

Fixpoint starts_with (sub mem : list byte) : bool :=
  match sub, mem with
  | [], _ => true
  | _ :: _, [] => false
  | b :: sub', m :: mem' => Strings.Byte.eqb b m && starts_with sub' mem'
  end.

(** [mem.find(sub)] on a mapping whose position is still zero: the lowest
    index at which [sub] starts, or -1. *)
Fixpoint find_from (index : Z) (mem sub : list byte) : Z :=
  if starts_with sub mem then index
  else
    match mem with
    | [] => (-1)%Z
    | _ :: mem' => find_from (index + 1) mem' sub
    end.

Definition find (mem sub : list byte) : Z := find_from 0 mem sub.

Definition not_found_line (marker : string) : string :=
  FAIL_ICON +:+ "marker '" +:+ marker +:+ "' not found in the irqbalance executable".

Definition found_line (marker : string) : string :=
  OK_ICON +:+ "marker '" +:+ marker +:+ "' found in the irqbalance executable".

(** The loop [for marker in MARKERS:] of lines 142 to 147. *)
Fixpoint scan_markers (mem : list byte) (markers : list string)
  (out : list string) : list string :=
  match markers with
  | [] => out
  | marker :: markers' =>
      let out :=
        if (find mem (bytes_utf8 marker) =? -1)%Z
        then print out (not_found_line marker)
        else print out (found_line marker) in
      scan_markers mem markers' out
  end.

(** What [os.open(IRQBALANCE_PATH, os.O_RDONLY)] can do: raise, return a
    descriptor for a regular file with some content, or return a descriptor
    for something that is not a regular file (a directory, a device). *)
Inductive os_open : Type :=
| open_raises (e : exn)
| open_returns (fd : nat) (content : list byte)
| open_returns_other (fd : nat).

(** What a descriptor stands for. *)
Inductive opened_file : Type :=
| regular_file (content : list byte)
| other_file.

(** [mmap.mmap(fd, 0, ...)] maps the whole of a regular file and refuses an
    empty one with [ValueError]; on anything else the mapping of length 0
    fails with [OSError]. *)
Definition mmap (file : opened_file) : res (list byte) :=
  match file with
  | regular_file [] => Raise (ValueError "cannot mmap an empty file")
  | regular_file (b :: content) => Ok (b :: content)
  | other_file => Raise OSError
  end.

Definition could_not_open_line : string :=
  FAIL_ICON +:+ IRQBALANCE_PATH +:+ ": could not open for reading".

Definition skipped_line : string :=
  SKIP_ICON +:+ "no irqbalance executable, cannot test markers".

(** Lines 133 to 150: what is printed, and the exception that ends the
    script there, if any.  The bare [except:] catches whatever [os.open]
    raises; [if fd:] is false for [None] and for descriptor 0. *)
Definition scan_step (opened : os_open) (markers : list string)
  (out : list string) : list string * option exn :=
  let '(fd, out) :=
    match opened with
    | open_raises _ =>
        (None, print out could_not_open_line)
    | open_returns fd content => (Some (fd, regular_file content), out)
    | open_returns_other fd => (Some (fd, other_file), out)
    end in
  match fd with
  | Some (S _, file) =>
      match mmap file with
      | Raise e => (out, Some e)
      | Ok mem => (scan_markers mem markers out, None)
      end
  | _ => (print out skipped_line, None)
  end.

(** ** [read_one_line] *)

(** Names are looked up among the globals of the module, then among the
    builtins.  The function binds [path], [line] and [f] only. *)
Inductive pyobject : Type :=
| exception_class (catches : exn -> bool)
| other_object.

(** Every name the script binds at module level; none is bound to an
    exception class. *)
Definition module_globals : list string :=
  [ "os"; "io"; "re"; "mmap";
    "OK_ICON"; "FAIL_ICON"; "INFO_ICON"; "SKIP_ICON";
    "IRQBALANCE_PATH"; "IRQBALANCE_SERVICE_PATH"; "MARKERS";
    "read_one_line"; "find_running_process_id"; "get_irq_statistics";
    "count_nonzero_values"; "get_nonzero_index";
    "cpu_count"; "fd"; "line"; "exitcode"; "mem"; "marker"; "pid";
    "irqs"; "irqs_per_cpu"; "irq"; "cpu_index" ].

(** The builtin exception classes that catch the exceptions of [exn]; the
    other builtins have longer names than one letter too. *)
Definition builtins : list (string * pyobject) :=
  [ ("BaseException", exception_class (fun _ => true));
    ("Exception", exception_class (fun _ => true));
    ("ValueError", exception_class (fun e =>
       match e with ValueError _ | UnicodeDecodeError => true | _ => false end));
    ("IndexError", exception_class (fun e =>
       match e with IndexError => true | _ => false end));
    ("LookupError", exception_class (fun e =>
       match e with IndexError | KeyError _ => true | _ => false end));
    ("KeyError", exception_class (fun e =>
       match e with KeyError _ => true | _ => false end));
    ("TypeError", exception_class (fun e =>
       match e with TypeError => true | _ => false end));
    ("NameError", exception_class (fun e =>
       match e with NameError _ => true | _ => false end));
    ("OSError", exception_class (fun e =>
       match e with OSError => true | _ => false end));
    ("UnicodeDecodeError", exception_class (fun e =>
       match e with UnicodeDecodeError => true | _ => false end)) ].

Definition lookup_name (name : string) : res pyobject :=
  if bool_decide (name ∈ module_globals) then Ok other_object
  else
    match list_find (fun entry => entry.1 = name) builtins with
    | Some (_, (_, object)) => Ok object
    | None => Raise (NameError name)
    end.

(** [try: body  except target: handler].  The expression after [except] is
    evaluated only once the body has raised; what it yields must be an
    exception class. *)
Definition try_except {A : Type} (body : res A) (target : string)
  (handler : res A) : res A :=
  match body with
  | Ok a => Ok a
  | Raise raised =>
      match lookup_name target with
      | Raise e => Raise e
      | Ok other_object => Raise TypeError
      | Ok (exception_class catches) =>
          if catches raised then handler else Raise raised
      end
  end.

(** A file system, as far as reading text goes: opening and reading a path
    either raises or yields the text of the file. *)
Definition filesystem : Type := string -> res string.

Definition read_one_line (fs : filesystem) (path : string) : res (option string) :=
  try_except
    (text ← fs path;
     let f := io_open text in
     let line := strip isspace (readline f).1 in
     Ok (Some line))
    "e"
    (Ok None).

(** ** Views used to state the properties *)

(** No character of [s] is whitespace. *)
Fixpoint no_space (s : string) : bool :=
  match s with
  | EmptyString => true
  | String c s' => negb (isspace c) && no_space s'
  end.

(** A line of text, ended by LF. *)
Definition nl (l : string) : string := l +:+ String LF "".

(** The table of the end-to-end scenario and the one-line table. *)
Definition scenario_text : string :=
  nl "CPU0 CPU1 CPU2" +:+ nl "16: 100 0 0 ..." +:+ nl "17: 0 0 50 ..." +:+ nl "ERR: 3".

Definition one_line_text : string :=
  nl "CPU0 CPU1" +:+ nl "5: 10 0 IO-APIC ...".

(** The header line of a text, its number of CPU labels, and the lines the
    loop of [get_irq_statistics] starts on. *)
Definition header_line (text : string) : string := (readline (io_open text)).1.
Definition body_lines (text : string) : file := (readline (io_open text)).2.
Definition header_cpu_count (text : string) : nat := length (split (header_line text)).

(** A line on which the loop breaks: at most one token. *)
Definition short_line (line : string) : bool := length (split line) <=? 1.

(** The lines in front of the first short line. *)
Fixpoint table_body (f : file) : file :=
  match f with
  | [] => []
  | line :: f' => if short_line line then [] else line :: table_body f'
  end.

(** Lines 72 to 82 on the columns of one line: nothing to store for [ERR]
    and [MIS], else the name and the counts. *)
Definition parse_line (cpu_count : nat) (columns : list string)
  : res (option (string * list Z)) :=
  c0 ← list_getitem columns 0;
  let irq_name := strip (Ascii.eqb ":") c0 in
  if String.eqb irq_name "ERR" || String.eqb irq_name "MIS" then Ok None
  else
    irqs_per_cpu ← int_each (slice columns 1 cpu_count);
    Ok (Some (irq_name, irqs_per_cpu)).

Definition store (result : dict) (entry : option (string * list Z)) : dict :=
  match entry with
  | None => result
  | Some (irq_name, irqs_per_cpu) => dict_setitem result irq_name irqs_per_cpu
  end.

(** The lines of a table body taken one after the other. *)
Fixpoint rows (cpu_count : nat) (lines : list string) (result : dict) : res dict :=
  match lines with
  | [] => Ok result
  | line :: lines' =>
      entry ← parse_line cpu_count (split line);
      rows cpu_count lines' (store result entry)
  end.

(** The name a line is stored under, and the columns converted by [int]. *)
Definition irq_name_of (line : string) : option string :=
  strip (Ascii.eqb ":") <$> split line !! 0.

Definition count_columns (cpu_count : nat) (line : string) : list string :=
  slice (split line) 1 cpu_count.

(** A line the loop passes without an exception and without a break. *)
Definition passes (cpu_count : nat) (line : string) : Prop :=
  short_line line = false /\
  exists entry, parse_line cpu_count (split line) = Ok entry.

(** [sub] occurs in [mem] as a contiguous run of bytes. *)
Definition occurs (sub mem : list byte) : Prop :=
  exists before after, mem = before ++ sub ++ after.

(** A printed line that reports on a marker, and one that reports a step
    left out. *)
Definition is_marker_result (line : string) : Prop :=
  exists marker, line = found_line marker \/ line = not_found_line marker.

Definition is_skipped (line : string) : Prop :=
  exists message, line = SKIP_ICON +:+ message.

(** [vec] has exactly one entry that is not zero: [v], at index [i]. *)
Definition only_nonzero (vec : list Z) (i : nat) (v : Z) : Prop :=
  vec !! i = Some v /\ v <> 0%Z /\
  forall j w, vec !! j = Some w -> w <> 0%Z -> j = i.

(** What a count sequence gives to the slot [j] of the sum: its entry at
    [j] when every other entry is zero, nothing otherwise. *)
Definition others_zero (vec : list Z) (j : nat) : bool :=
  forallb (fun x => (x =? 0)%Z) (take j vec ++ drop (S j) vec).

Definition share (vec : list Z) (j : nat) : Z :=
  match vec !! j with
  | Some v => if others_zero vec j then v else 0%Z
  | None => 0%Z
  end.

Definition total_share (irqs : dict) (j : nat) : Z :=
  foldr Z.add 0%Z ((fun entry => share entry.2 j) <$> irqs).

(** The first and the last character of a string. *)
Definition first_char (s : string) : option ascii :=
  match s with
  | EmptyString => None
  | String c _ => Some c
  end.

Fixpoint last_char (s : string) : option ascii :=
  match s with
  | EmptyString => None
  | String c EmptyString => Some c
  | String _ s' => last_char s'
  end.

(** ** [find_running_process_id] *)

(** What can stop the script beyond the exceptions of [exn]: two more
    exceptions and [exit(code)]. *)
Inductive stop : Type :=
| uncaught (e : exn)
| attribute_error
| overflow_error
| system_exit (code : Z).

Inductive run (A : Type) : Type :=
| Done (a : A)
| Stop (s : stop).
Arguments Done {A} a.
Arguments Stop {A} s.

#[global] Instance run_ret : MRet run := fun A a => Done a.

#[global] Instance run_bind : MBind run := fun A B k r =>
  match r with
  | Done a => k a
  | Stop s => Stop s
  end.

Definition lift {A : Type} (r : res A) : run A :=
  match r with
  | Ok a => Done a
  | Raise e => Stop (uncaught e)
  end.

Definition is_digit (c : ascii) : bool :=
  match digit_value c with
  | Some _ => true
  | None => false
  end.

(** [re.match("^[0-9]+$", s)] as a truth value: one digit at least, digits
    up to the end; [$] also matches in front of a line feed that ends the
    string. *)
Fixpoint digits_to_end (s : string) : bool :=
  match s with
  | EmptyString => true
  | String c s' =>
      if is_digit c then digits_to_end s' else Ascii.eqb c LF && is_empty s'
  end.

Definition re_match_digits (s : string) : bool :=
  match s with
  | EmptyString => false
  | String c s' => is_digit c && digits_to_end s'
  end.

(** [int(x)] on any string: the whitespace at both ends goes first.  Below
    code point 256 [int] takes 9 to 13, 32, 133 and 160 for whitespace. *)
Definition int_space (c : ascii) : bool :=
  let n := nat_of_ascii c in
  ((9 <=? n) && (n <=? 13)) || (n =? 32) || (n =? 133) || (n =? 160).

Definition int_stripping (x : string) : res Z :=
  match int_opt (strip int_space x) with
  | Some v => Ok v
  | None => Raise (ValueError x)
  end.

Fixpoint str_starts_with (sub s : string) : bool :=
  match sub, s with
  | EmptyString, _ => true
  | String _ _, EmptyString => false
  | String a sub', String b s' => Ascii.eqb a b && str_starts_with sub' s'
  end.

(** [s.find(sub)]: the lowest index at which [sub] starts in [s], or -1. *)
Fixpoint str_find_from (index : Z) (s sub : string) : Z :=
  if str_starts_with sub s then index
  else
    match s with
    | EmptyString => (-1)%Z
    | String _ s' => str_find_from (index + 1) s' sub
    end.

Definition str_find (s sub : string) : Z := str_find_from 0 s sub.

Definition cmdline_path (pid : string) : string :=
  "/proc/" +:+ pid +:+ "/cmdline".

(** The loop [for pid in os.listdir("/proc/"):], over the names in the
    order [os.listdir] gave them. *)
Fixpoint for_pid (fs : filesystem) (name : string) (listing : list string)
  : run (option Z) :=
  match listing with
  | [] => Done None
  | pid :: listing' =>
      if re_match_digits pid then
        cmdline ← lift (read_one_line fs (cmdline_path pid));
        match cmdline with
        | None => Stop attribute_error
        | Some cmdline =>
            if negb (str_find cmdline name =? -1)%Z
            then pid_number ← lift (int_stripping pid); Done (Some pid_number)
            else for_pid fs name listing'
        end
      else for_pid fs name listing'
  end.

Definition find_running_process_id (listdir : res (list string))
  (fs : filesystem) (name : string) : run (option Z) :=
  listing ← lift listdir;
  for_pid fs name listing.

(** [sub] occurs in [s]. *)
Definition contains (s sub : string) : Prop :=
  exists before after, s = before +:+ sub +:+ after.

(** The first line of a text as [read_one_line] returns it. *)
Definition first_line (text : string) : string :=
  strip isspace (readline (io_open text)).1.

(** An entry the loop passes by: not a number, or a number whose command
    line can be read and does not hold the name. *)
Definition passed_by (fs : filesystem) (name pid : string) : Prop :=
  re_match_digits pid = true ->
  exists text, fs (cmdline_path pid) = Ok text /\ ~ contains (first_line text) name.

(** ** The script from top to bottom *)

Definition IRQBALANCE_SERVICE_PATH : string :=
  "/usr/lib/systemd/system/irqbalance.service".

(** ["%d" % n] for an integer [n]. *)
Definition format_d (n : Z) : string :=
  DecimalString.NilZero.string_of_int (Z.to_int n).

(** What [os.popen] hands back: the text the command wrote, or the
    exception that reading it raises, and the return code of the shell. *)
Record pipe : Type := {
  pipe_output : res string;
  pipe_returncode : Z }.

(** [fd.close()] on the object of [os.popen]: [None] for return code 0,
    else the return code shifted left by 8 bits. *)
Definition pipe_close (fd : pipe) : option Z :=
  if (pipe_returncode fd =? 0)%Z then None
  else Some (Z.shiftl (pipe_returncode fd) 8).

(** [os.waitstatus_to_exitcode(status)]: the status has to fit a C [int];
    low seven bits zero mean a normal exit, 1 to 126 a signal. *)
Definition waitstatus_to_exitcode (status : Z) : run Z :=
  if ((status <? - 2 ^ 31) || (2 ^ 31 <=? status))%Z then Stop overflow_error
  else if (Z.land status 127 =? 0)%Z then Done (Z.shiftr (Z.land status 65280) 8)
  else if negb (Z.land status 127 =? 127)%Z then Done (- Z.land status 127)%Z
  else if (Z.land status 255 =? 127)%Z
       then Stop (uncaught (ValueError "process stopped by delivery of signal"))
       else Stop (uncaught (ValueError "invalid wait status")).

(** The outcome of every call by which the script looks at the machine. *)
Record world : Type := {
  os_cpu_count : option nat;
  access_x_ok : bool;
  os_popen : res pipe;
  access_r_ok : bool;
  os_open_executable : os_open;
  os_listdir : res (list string);
  files : filesystem;
  proc_interrupts : res string }.

(** A stretch of the script: from the lines printed so far to the lines
    printed after it, with a value or with what stopped the script. *)
Definition script (A : Type) : Type := list string -> list string * run A.

#[global] Instance script_ret : MRet script := fun A a out => (out, Done a).

#[global] Instance script_bind : MBind script := fun A B k m out =>
  match m out with
  | (out', Done a) => k a out'
  | (out', Stop s) => (out', Stop s)
  end.

Definition say (line : string) : script unit :=
  fun out => (print out line, Done tt).

Definition stop_with {A : Type} (s : stop) : script A :=
  fun out => (out, Stop s).

Definition of_run {A : Type} (r : run A) : script A :=
  fun out => (out, r).

(** Lines 104 and 105. *)
Definition report_cpu_count (w : world) : script nat :=
  match os_cpu_count w with
  | None => stop_with (uncaught TypeError)
  | Some cpu_count =>
      say (INFO_ICON +:+ "processor count: " +:+ format_d (Z.of_nat cpu_count));;
      mret cpu_count
  end.

(** Lines 107 to 111. *)
Definition check_executable (w : world) : script unit :=
  if access_x_ok w
  then say (OK_ICON +:+ IRQBALANCE_PATH +:+ " exists and is executable")
  else say (FAIL_ICON +:+ IRQBALANCE_PATH +:+ " does not exist, or is not accessible").

(** Lines 119 to 126, on the object [os.popen] returned. *)
Definition report_version (fd : pipe) : script unit :=
  text ← of_run (lift (pipe_output fd));
  let line := strip isspace (readline (io_open text)).1 in
  match pipe_close fd with
  | None =>
      say (OK_ICON +:+ IRQBALANCE_PATH +:+ " --version returns '" +:+ line +:+ "'")
  | Some exitcode =>
      code ← of_run (waitstatus_to_exitcode exitcode);
      say (FAIL_ICON +:+ IRQBALANCE_PATH +:+ " --version failed with exit code "
           +:+ format_d code)
  end.

(** Lines 113 to 126. *)
Definition check_version (w : world) : script unit :=
  match os_popen w with
  | Raise _ =>
      say (FAIL_ICON +:+ IRQBALANCE_PATH +:+ " --version did not execute correctly");;
      stop_with (system_exit 1)
  | Ok fd => report_version fd
  end.

(** Lines 128 to 131. *)
Definition check_service (w : world) : script unit :=
  if access_r_ok w
  then say (OK_ICON +:+ IRQBALANCE_SERVICE_PATH +:+ " exists and is readable")
  else say (FAIL_ICON +:+ IRQBALANCE_SERVICE_PATH +:+ " does not exist or is not readable").

(** Lines 133 to 150. *)
Definition check_markers (w : world) : script unit :=
  fun out =>
    match scan_step (os_open_executable w) MARKERS out with
    | (out', Some e) => (out', Stop (uncaught e))
    | (out', None) => (out', Done tt)
    end.

(** Lines 152 to 156; [not pid] holds for [None] and for 0. *)
Definition check_running (w : world) : script unit :=
  pid ← of_run (find_running_process_id (os_listdir w) (files w) "irqbalance");
  match pid with
  | Some (Zpos _ as pid) | Some (Zneg _ as pid) =>
      say (OK_ICON +:+ "irqbalance currently running (PID " +:+ format_d pid +:+ ")")
  | _ => say (INFO_ICON +:+ "irqbalance seems not to be running")
  end.

(** Lines 104 to 156. *)
Definition report (w : world) : script nat :=
  cpu_count ← report_cpu_count w;
  check_executable w;;
  check_version w;;
  check_service w;;
  check_markers w;;
  check_running w;;
  mret cpu_count.

(** The whole script: what it prints and what stops it, [None] for the end
    of the file.  Lines 158 to 163 print nothing. *)
Definition main (w : world) : option (list string * option stop) :=
  match report w [] with
  | (out, Stop s) => Some (out, Some s)
  | (out, Done cpu_count) =>
      match proc_interrupts w with
      | Raise e => Some (out, Some (uncaught e))
      | Ok text =>
          match main_irqs cpu_count text with
          | None => None
          | Some (Raise e) => Some (out, Some (uncaught e))
          | Some (Ok irqs_per_cpu) => Some (out, None)
          end
      end
  end.

(** A line that starts with one of the four tags. *)
Definition has_icon (line : string) : Prop :=
  exists rest,
    line = OK_ICON +:+ rest \/ line = FAIL_ICON +:+ rest \/
    line = INFO_ICON +:+ rest \/ line = SKIP_ICON +:+ rest.

Definition with_interrupts (w : world) (interrupts : res string) : world :=
  {| os_cpu_count := os_cpu_count w;
     access_x_ok := access_x_ok w;
     os_popen := os_popen w;
     access_r_ok := access_r_ok w;
     os_open_executable := os_open_executable w;
     os_listdir := os_listdir w;
     files := files w;
     proc_interrupts := interrupts |}.

(** A stretch of the script that prints tagged lines only. *)
Definition keeps_icons {A : Type} (m : script A) : Prop :=
  forall out, Forall has_icon out -> Forall has_icon (m out).1.

(** A stretch of the script that is stopped, if at all, in a way [P]
    allows. *)
Definition stops_in {A : Type} (P : stop -> Prop) (m : script A) : Prop :=
  forall out out' s, m out = (out', Stop s) -> P s.

Definition not_exit (s : stop) : Prop := forall code, s <> system_exit code.

(** A machine on which every check of the script succeeds. *)
Definition healthy_world : world :=
  {| os_cpu_count := Some 4;
     access_x_ok := true;
     os_popen := Ok {| pipe_output := Ok (nl "irqbalance version 1.9.2");
                       pipe_returncode := 0 |};
     access_r_ok := true;
     os_open_executable := open_returns 3 (bytes_utf8 "irqbalance");
     os_listdir := Ok ["self"; "1"; "42"];
     files := fun path =>
       if String.eqb path "/proc/42/cmdline" then Ok "/usr/sbin/irqbalance"
       else Ok "init";
     proc_interrupts := Ok scenario_text |}.

(** What the script prints on [healthy_world]. *)
Definition healthy_report : list string :=
  Eval vm_compute in (report healthy_world []).1.

(** * Properties *)

(** ** The primitives on small inputs *)

Example split_interrupt_line :
  split (nl "  16:   100 0  0 IO-APIC  ") = ["16:"; "100"; "0"; "0"; "IO-APIC"].
Proof. reflexivity. Qed.

Example split_blank_line : split (nl "   ") = [].
Proof. reflexivity. Qed.

Example strip_colons : strip (Ascii.eqb ":") "::1:6::" = "1:6".
Proof. reflexivity. Qed.

Example int_literals :
  int "007" = Ok 7%Z /\ int "+12" = Ok 12%Z /\ int "-3" = Ok (-3)%Z /\
  int "1_000" = Ok 1000%Z /\ int "1__0" = Raise (ValueError "1__0") /\
  int "_1" = Raise (ValueError "_1") /\ int "" = Raise (ValueError "") /\
  int "IO-APIC" = Raise (ValueError "IO-APIC").
Proof. repeat split; reflexivity. Qed.

Example io_open_newlines :
  io_open ("a b" +:+ String CR (String LF "c") +:+ String CR "d")
    = [nl "a b"; nl "c"; "d"].
Proof. reflexivity. Qed.

Example slice_columns :
  slice ["5:"; "10"; "0"; "IO-APIC"] 1 2 = ["10"] /\
  slice ["5:"; "10"] 1 4 = ["10"] /\
  slice ["5:"; "10"] 1 0 = [].
Proof. repeat split; reflexivity. Qed.

Example dict_setitem_order :
  dict_setitem [("a", [1%Z]); ("b", [2%Z])] "a" [3%Z] = [("a", [3%Z]); ("b", [2%Z])] /\
  dict_setitem [("a", [1%Z]); ("b", [2%Z])] "c" [3%Z]
    = [("a", [1%Z]); ("b", [2%Z]); ("c", [3%Z])].
Proof. split; reflexivity. Qed.

Example find_marker :
  find (bytes_utf8 "xx/proc/interrupts") (bytes_utf8 "/proc") = 2%Z /\
  find (bytes_utf8 "xx/proc/interrupts") (bytes_utf8 "numa") = (-1)%Z /\
  find (bytes_utf8 "xx") [] = 0%Z.
Proof. repeat split; reflexivity. Qed.

(** ** Tokens *)

Lemma no_space_snoc word c :
  no_space word = true -> isspace c = false ->
  no_space (word +:+ String c "") = true.
Proof.
  intros Hword Hc. induction word as [|a word IH]; simpl in *.
  - rewrite Hc. reflexivity.
  - apply andb_true_iff in Hword as [-> Hword]. simpl. apply IH, Hword.
Qed.

Lemma is_empty_snoc word c : is_empty (word +:+ String c "") = false.
Proof. destruct word; reflexivity. Qed.

Lemma split_from_tokens s : forall word t,
  no_space word = true ->
  t ∈ split_from word s -> is_empty t = false /\ no_space t = true.
Proof.
  assert (forall word t, no_space word = true -> t ∈ flush word ->
            is_empty t = false /\ no_space t = true) as Hflush.
  { intros word t Hword. unfold flush. destruct (is_empty word) eqn:Hempty.
    - intros H. inversion H.
    - intros H. apply list_elem_of_singleton in H as ->. auto. }
  induction s as [|c s IH]; intros word t Hword; simpl; [apply Hflush, Hword|].
  destruct (isspace c) eqn:Hc.
  - intros Hin. apply elem_of_app in Hin as [Hin|Hin].
    + apply (Hflush word); assumption.
    + apply (IH ""); [reflexivity|exact Hin].
  - apply IH. apply no_space_snoc; assumption.
Qed.

(** The tokens of [split] are not empty and hold no whitespace, so [int]
    has nothing to strip from them. *)
Lemma split_tokens s t :
  t ∈ split s -> is_empty t = false /\ no_space t = true.
Proof. apply split_from_tokens. reflexivity. Qed.

(** ** The loop of [get_irq_statistics] *)

Section ParserLoop.

Variable cpu_count : nat.

Lemma split_empty : split "" = [].
Proof. reflexivity. Qed.

(** One pass over a line that is not short stores what [parse_line] finds
    and goes on with the rest of the file. *)
Lemma while_body_cons line f result :
  while_body cpu_count (line :: f) result =
    if short_line line then Ok (Break result)
    else entry ← parse_line cpu_count (split line);
         Ok (Continue f (store result entry)).
Proof.
  unfold while_body, short_line, parse_line; simpl readline; cbv beta iota zeta.
  destruct (length (split line) <=? 1); [reflexivity|].
  destruct (list_getitem (split line) 0) as [c0|e]; simpl; [|reflexivity].
  destruct (_ || _); simpl; [reflexivity|].
  destruct (int_each _); reflexivity.
Qed.

(** At the end of the file [readline] hands out the empty string, which has
    no token: the loop breaks. *)
Lemma while_body_eof result :
  while_body cpu_count [] result = Ok (Break result).
Proof. reflexivity. Qed.

Lemma while_loop_rows f : forall fuel result,
  length (table_body f) < fuel ->
  while_loop fuel cpu_count f result = Some (rows cpu_count (table_body f) result).
Proof.
  induction f as [|line f IH]; intros fuel result Hfuel.
  - destruct fuel as [|fuel]; [simpl in Hfuel; lia|]. reflexivity.
  - destruct fuel as [|fuel]; [simpl in Hfuel; lia|].
    cbn [while_loop table_body]. rewrite while_body_cons.
    simpl in Hfuel. destruct (short_line line) eqn:Hshort; [reflexivity|].
    cbn [rows]. destruct (parse_line cpu_count (split line)) as [entry|e];
      simpl; [|reflexivity].
    apply IH. simpl in Hfuel. lia.
Qed.

Lemma table_body_length f : length (table_body f) <= length f.
Proof.
  induction f as [|line f IH]; simpl; [lia|].
  destruct (short_line line); simpl; lia.
Qed.

(** The loop ends, and more fuel than there are lines changes nothing. *)
Lemma while_loop_total f result fuel :
  length f < fuel ->
  while_loop fuel cpu_count f result =
    while_loop (S (length f)) cpu_count f result /\
  exists r, while_loop fuel cpu_count f result = Some r.
Proof.
  intros Hfuel. pose proof (table_body_length f).
  rewrite !while_loop_rows by lia. eauto.
Qed.

End ParserLoop.

Lemma get_irq_statistics_rows text :
  get_irq_statistics text =
    Some (rows (header_cpu_count text) (table_body (body_lines text)) []).
Proof.
  unfold get_irq_statistics, header_cpu_count, header_line, body_lines.
  destruct (readline (io_open text)) as [l f]. cbn [fst snd].
  apply while_loop_rows. pose proof (table_body_length f). lia.
Qed.

(** ** Conversions *)

Lemma digit_value_nonneg c d : digit_value c = Some d -> (0 <= d)%Z.
Proof.
  unfold digit_value. destruct (_ && _); [|discriminate].
  intros [= <-]. lia.
Qed.

Lemma digits_from_nonneg s : forall after acc count v n,
  (0 <= acc)%Z -> digits_from after acc count s = Some (v, n) -> (0 <= v)%Z.
Proof.
  induction s as [|c s IH]; intros after acc count v n Hacc; simpl.
  - destruct after; [|discriminate]. intros [= <- _]. exact Hacc.
  - destruct (digit_value c) as [d|] eqn:Hd.
    + apply IH. pose proof (digit_value_nonneg _ _ Hd). lia.
    + destruct (_ && _); [|discriminate]. apply IH. exact Hacc.
Qed.

Lemma magnitude_nonneg s v : magnitude s = Some v -> (0 <= v)%Z.
Proof.
  unfold magnitude. destruct (digits_from false 0 0 s) as [[w n]|] eqn:Hd;
    [|discriminate].
  destruct (n <=? int_max_str_digits); [|discriminate].
  intros [= <-]. eapply digits_from_nonneg; [|exact Hd]. lia.
Qed.

(** A negative value can only come from a literal with a minus sign. *)
Lemma int_opt_negative x v :
  int_opt x = Some v -> (v < 0)%Z -> exists x', x = String "-" x'.
Proof.
  intros Hx Hv. destruct x as [|c x'].
  - apply magnitude_nonneg in Hx. lia.
  - destruct (ascii_dec c "-") as [->|Hc]; [eauto|].
    assert (magnitude (String c x') = Some v) as Hm.
    { revert Hx. unfold int_opt.
      destruct (ascii_dec c "+") as [->|Hp].
      - intros Hx. apply magnitude_nonneg in Hx. lia.
      - destruct c as [[] [] [] [] [] [] [] []]; try exact id; congruence. }
    apply magnitude_nonneg in Hm. lia.
Qed.

Lemma int_each_ok xs : forall vs,
  int_each xs = Ok vs <-> Forall2 (fun x v => int_opt x = Some v) xs vs.
Proof.
  induction xs as [|x xs IH]; intros vs; simpl.
  - split; [intros [= <-]; constructor|]. intros H; inversion H; reflexivity.
  - unfold int. destruct (int_opt x) as [v|] eqn:Hx; simpl.
    + destruct (int_each xs) as [ws|e] eqn:Hxs; simpl.
      * split.
        -- intros [= <-]. constructor; [exact Hx|]. apply IH. reflexivity.
        -- intros H. inversion H as [|? w ? ws' Hw Hws]; subst.
           apply IH in Hws. congruence.
      * split; [discriminate|]. intros H.
        inversion H as [|? w ? ws' Hw Hws]; subst.
        apply IH in Hws. discriminate.
    + split; [discriminate|]. intros H. inversion H; congruence.
Qed.

(** The comprehension raises the [ValueError] of the first column that
    [int] refuses. *)
Lemma int_each_raise xs x :
  x ∈ xs -> int_opt x = None ->
  exists y, y ∈ xs /\ int_opt y = None /\ int_each xs = Raise (ValueError y).
Proof.
  induction xs as [|a xs IH]; intros Hin Hx; [inversion Hin|].
  simpl. unfold int. destruct (int_opt a) as [v|] eqn:Ha; simpl.
  - assert (x ∈ xs) as Hin'.
    { apply elem_of_cons in Hin as [->|Hin]; [congruence|exact Hin]. }
    destruct (IH Hin' Hx) as (y & Hy & Hyn & ->).
    exists y. split; [right; exact Hy|]. split; [exact Hyn|reflexivity].
  - exists a. split; [left|]. split; [exact Ha|reflexivity].
Qed.

Lemma int_each_raised xs : forall e,
  int_each xs = Raise e ->
  exists y, y ∈ xs /\ int_opt y = None /\ e = ValueError y.
Proof.
  induction xs as [|a xs IH]; intros e; simpl; [discriminate|].
  unfold int. destruct (int_opt a) as [v|] eqn:Ha; simpl.
  - destruct (int_each xs) as [vs|e'] eqn:Hxs; simpl; [discriminate|].
    intros [= <-]. destruct (IH _ eq_refl) as (y & Hy & Hyn & ->).
    exists y. split; [right; exact Hy|]. split; [exact Hyn|reflexivity].
  - intros [= <-]. exists a. split; [left|]. split; [exact Ha|reflexivity].
Qed.

(** ** The stored table *)

Lemma dict_setitem_elem d k v k' v' :
  (k', v') ∈ dict_setitem d k v -> (k', v') = (k, v) \/ (k', v') ∈ d.
Proof.
  induction d as [|[k0 v0] d IH]; simpl.
  - intros H. apply list_elem_of_singleton in H. left. exact H.
  - destruct (String.eqb k0 k).
    + intros H. apply elem_of_cons in H as [H|H]; [left; exact H|].
      right. right. exact H.
    + intros H. apply elem_of_cons in H as [H|H].
      * right. rewrite H. left.
      * destruct (IH H) as [H'|H']; [left; exact H'|right; right; exact H'].
Qed.

Lemma rows_app cpu_count l1 : forall l2 result,
  rows cpu_count (l1 ++ l2) result =
    (result' ← rows cpu_count l1 result; rows cpu_count l2 result').
Proof.
  induction l1 as [|line l1 IH]; intros l2 result; simpl; [reflexivity|].
  destruct (parse_line cpu_count (split line)) as [entry|e]; simpl;
    [apply IH|reflexivity].
Qed.

Lemma rows_passes cpu_count lines : forall result,
  Forall (passes cpu_count) lines ->
  exists result', rows cpu_count lines result = Ok result'.
Proof.
  induction lines as [|line lines IH]; intros result Hall; simpl; [eauto|].
  inversion Hall as [|? ? [_ [entry Hentry]] Hrest]; subst.
  rewrite Hentry. simpl. apply IH. exact Hrest.
Qed.

(** Every entry of the table was there at the start or was read from one of
    the lines. *)
Lemma rows_entries cpu_count lines : forall result table name vec,
  rows cpu_count lines result = Ok table ->
  (name, vec) ∈ table ->
  (name, vec) ∈ result \/
  exists line, line ∈ lines /\
    parse_line cpu_count (split line) = Ok (Some (name, vec)).
Proof.
  induction lines as [|line lines IH]; intros result table name vec; simpl.
  - intros [= <-] Hin. left. exact Hin.
  - destruct (parse_line cpu_count (split line)) as [entry|e] eqn:Hline; simpl;
      [|discriminate].
    intros Hrows Hin. destruct (IH _ _ _ _ Hrows Hin) as [Hres|(l & Hl & Hp)].
    + destruct entry as [[k v]|]; simpl in Hres.
      * apply dict_setitem_elem in Hres as [[= -> ->]|Hres].
        -- right. exists line. split; [left|exact Hline].
        -- left. exact Hres.
      * left. exact Hres.
    + right. exists l. split; [right; exact Hl|exact Hp].
Qed.

Lemma table_body_elem f line : line ∈ table_body f -> line ∈ f.
Proof.
  induction f as [|l f IH]; simpl; [intros H; exact H|].
  destruct (short_line l); [intros H; inversion H|].
  intros H. apply elem_of_cons in H as [->|H]; [left|right; apply IH, H].
Qed.

Lemma table_body_app pre tail :
  Forall (fun l => short_line l = false) pre ->
  table_body (pre ++ tail) = pre ++ table_body tail.
Proof.
  induction 1 as [|l pre Hl _ IH]; simpl; [reflexivity|].
  rewrite Hl, IH. reflexivity.
Qed.

Lemma table_body_stop pre short rest :
  Forall (fun l => short_line l = false) pre -> short_line short = true ->
  table_body (pre ++ short :: rest) = pre.
Proof.
  intros Hpre Hshort. rewrite table_body_app by exact Hpre.
  simpl. rewrite Hshort. apply app_nil_r.
Qed.

Lemma table_body_all f :
  Forall (fun l => short_line l = false) f -> table_body f = f.
Proof.
  intros Hall. rewrite <- (app_nil_r f) at 1.
  rewrite table_body_app by exact Hall. apply app_nil_r.
Qed.

(** What a stored entry says about the line it was read from. *)
Lemma parse_line_stored cpu_count line name vec :
  parse_line cpu_count (split line) = Ok (Some (name, vec)) ->
  irq_name_of line = Some name /\
  int_each (count_columns cpu_count line) = Ok vec.
Proof.
  unfold parse_line, irq_name_of, count_columns, list_getitem.
  destruct (split line !! 0) as [c0|]; simpl; [|discriminate].
  destruct (_ || _); [discriminate|].
  destruct (int_each _) as [vs|e]; simpl; [|discriminate].
  intros [= <- <-]. split; reflexivity.
Qed.

Lemma table_body_not_short f :
  Forall (fun l => short_line l = false) (table_body f).
Proof.
  induction f as [|l f IH]; simpl; [constructor|].
  destruct (short_line l) eqn:Hl; constructor; assumption.
Qed.

Lemma not_short_first line :
  short_line line = false -> exists c0, split line !! 0 = Some c0.
Proof.
  unfold short_line. destruct (split line) as [|c0 cols]; simpl; [discriminate|].
  eauto.
Qed.

(** One line that is not short: either it passes, or a count column that
    [int] refuses raises its [ValueError]. *)
Lemma parse_line_cases cpu_count line :
  short_line line = false ->
  (exists entry, parse_line cpu_count (split line) = Ok entry) \/
  (exists y, y ∈ count_columns cpu_count line /\ int_opt y = None /\
     parse_line cpu_count (split line) = Raise (ValueError y)).
Proof.
  intros Hshort. destruct (not_short_first _ Hshort) as [c0 Hc0].
  unfold parse_line, list_getitem. rewrite Hc0. simpl.
  destruct (_ || _); [left; eauto|].
  fold (count_columns cpu_count line).
  destruct (int_each (count_columns cpu_count line)) as [vs|e] eqn:Hints; simpl;
    [left; eauto|].
  right. apply int_each_raised in Hints as (y & Hy & Hyn & ->). eauto.
Qed.

Lemma parse_line_bad cpu_count line x :
  short_line line = false ->
  irq_name_of line <> Some "ERR" -> irq_name_of line <> Some "MIS" ->
  x ∈ count_columns cpu_count line -> int_opt x = None ->
  exists y, y ∈ count_columns cpu_count line /\ int_opt y = None /\
    parse_line cpu_count (split line) = Raise (ValueError y).
Proof.
  intros Hshort Herr Hmis Hx Hnone.
  destruct (not_short_first _ Hshort) as [c0 Hc0].
  unfold irq_name_of in Herr, Hmis. rewrite Hc0 in Herr, Hmis. simpl in Herr, Hmis.
  unfold parse_line, list_getitem. rewrite Hc0. simpl.
  destruct (String.eqb_spec (strip (Ascii.eqb ":") c0) "ERR") as [E|_];
    [congruence|].
  destruct (String.eqb_spec (strip (Ascii.eqb ":") c0) "MIS") as [E|_];
    [congruence|].
  simpl. fold (count_columns cpu_count line).
  destruct (int_each_raise _ _ Hx Hnone) as (y & Hy & Hyn & ->).
  exists y. split; [exact Hy|]. split; [exact Hyn|reflexivity].
Qed.

(** The exception of a table body is the [ValueError] of a count column. *)
Lemma rows_raise cpu_count lines : forall result e,
  Forall (fun l => short_line l = false) lines ->
  rows cpu_count lines result = Raise e ->
  exists line y, line ∈ lines /\ y ∈ count_columns cpu_count line /\
    int_opt y = None /\ e = ValueError y.
Proof.
  induction lines as [|line lines IH]; intros result e Hall; simpl;
    [discriminate|].
  inversion Hall as [|? ? Hline Hrest]; subst.
  destruct (parse_line_cases cpu_count line Hline)
    as [[entry ->]|(y & Hy & Hyn & ->)]; simpl.
  - intros Hrows. destruct (IH _ _ Hrest Hrows) as (l & y & Hl & Hy).
    exists l, y. split; [right; exact Hl|exact Hy].
  - intros [= <-]. exists line, y. split; [left|]. auto.
Qed.

(** A table body with a bad count column raises. *)
Lemma rows_bad cpu_count lines line x : forall result,
  Forall (fun l => short_line l = false) lines ->
  line ∈ lines ->
  irq_name_of line <> Some "ERR" -> irq_name_of line <> Some "MIS" ->
  x ∈ count_columns cpu_count line -> int_opt x = None ->
  exists e, rows cpu_count lines result = Raise e.
Proof.
  induction lines as [|l lines IH]; intros result Hall Hin Herr Hmis Hx Hnone;
    [inversion Hin|].
  inversion Hall as [|? ? Hl Hrest]; subst. simpl.
  destruct (parse_line_cases cpu_count l Hl) as [[entry Hentry]|(y & _ & _ & ->)];
    [|simpl; eauto].
  rewrite Hentry. simpl.
  apply elem_of_cons in Hin as [->|Hin].
  - destruct (parse_line_bad cpu_count l x Hl Herr Hmis Hx Hnone)
      as (y & _ & _ & Hraise). congruence.
  - apply IH; assumption.
Qed.

Lemma rows_ok_passes cpu_count lines : forall result table,
  Forall (fun l => short_line l = false) lines ->
  rows cpu_count lines result = Ok table ->
  Forall (passes cpu_count) lines.
Proof.
  induction lines as [|line lines IH]; intros result table Hall; simpl;
    [constructor|].
  inversion Hall as [|? ? Hline Hrest]; subst.
  destruct (parse_line cpu_count (split line)) as [entry|e] eqn:Hentry; simpl;
    [|discriminate].
  intros Hrows. constructor; [split; eauto|]. eapply IH; eassumption.
Qed.

(** ** Claims about the parser *)

(** C1: on the scenario table (header [CPU0 CPU1 CPU2], lines [16: 100 0 0 ...],
    [17: 0 0 50 ...] and [ERR: 3]) the parser followed by the sum yields
    [100, 0, 0] on a machine with three CPUs, not the [100, 0, 50] that the
    specification expects: the slice [columns[1:cpu_count]] drops the column
    of CPU2, so line 17 is stored as [0, 0] and adds nothing.  No processor
    count makes the script yield [100, 0, 50]. *)
Theorem scenario_exclusive_load :
  get_irq_statistics scenario_text
    = Some (Ok [("16", [100; 0]); ("17", [0; 0])]%Z) /\
  main_irqs 3 scenario_text = Some (Ok [100; 0; 0]%Z) /\
  forall cpu_count, main_irqs cpu_count scenario_text <> Some (Ok [100; 0; 50]%Z).
Proof.
  split; [vm_compute; reflexivity|]. split; [vm_compute; reflexivity|].
  intros [|[|[|[|n]]]]; vm_compute; congruence.
Qed.

(** C2: for header [CPU0 CPU1] and the line [5: 10 0 IO-APIC ...] the parser
    yields the table [{"5": [10]}]: one count for two CPUs, where the
    specification (and the comment above the function) has
    [{"5": [10, 0]}]. *)
Theorem one_line_table :
  header_cpu_count one_line_text = 2 /\
  get_irq_statistics one_line_text = Some (Ok [("5", [10%Z])]).
Proof. split; vm_compute; reflexivity. Qed.

(** A table body line whose name is not [ERR] or [MIS] and which has,
    among the columns [int] is applied to ([columns[1:cpu_count]]), one that
    is not an integer literal makes [get_irq_statistics] raise: its result
    is the [ValueError] of such a column, so no table comes back, with or
    without the field.  The count column of the last CPU is not among
    those columns ([last_count_column_dropped] below). *)
Theorem unparseable_count_raises text line x :
  line ∈ table_body (body_lines text) ->
  irq_name_of line <> Some "ERR" -> irq_name_of line <> Some "MIS" ->
  x ∈ count_columns (header_cpu_count text) line -> int x = Raise (ValueError x) ->
  exists line' y,
    line' ∈ table_body (body_lines text) /\
    y ∈ count_columns (header_cpu_count text) line' /\
    int y = Raise (ValueError y) /\
    get_irq_statistics text = Some (Raise (ValueError y)).
Proof.
  intros Hline Herr Hmis Hx Hint.
  assert (int_opt x = None) as Hnone.
  { unfold int in Hint. destruct (int_opt x); [discriminate|reflexivity]. }
  rewrite get_irq_statistics_rows.
  destruct (rows_bad (header_cpu_count text) _ line x []
              (table_body_not_short _) Hline Herr Hmis Hx Hnone) as [e He].
  destruct (rows_raise _ _ _ _ (table_body_not_short _) He)
    as (line' & y & Hl & Hy & Hyn & ->).
  exists line', y. split; [exact Hl|]. split; [exact Hy|].
  split; [unfold int; rewrite Hyn; reflexivity|]. rewrite He. reflexivity.
Qed.

Lemma unparseable_count_raises_witness :
  let text := nl "CPU0 CPU1 CPU2" +:+ nl "5: 10 x IO-APIC" in
  exists line' y,
    line' ∈ table_body (body_lines text) /\
    y ∈ count_columns (header_cpu_count text) line' /\
    int y = Raise (ValueError y) /\
    get_irq_statistics text = Some (Raise (ValueError y)).
Proof.
  intros text.
  apply (unparseable_count_raises text (nl "5: 10 x IO-APIC") "x").
  - vm_compute. left.
  - vm_compute. discriminate.
  - vm_compute. discriminate.
  - vm_compute. right. left.
  - vm_compute. reflexivity.
Defined.

(** C5: the count column of the last CPU is never handed to [int]: with
    header [CPU0 CPU1] and the line [5: 10 x IO-APIC] the parser raises
    nothing and returns the table [{"5": [10]}], the field [x] dropped
    without a word, although [int] refuses [x].  On a header with a single
    label no column of any line is converted, so no line raises. *)
Theorem last_count_column_dropped :
  header_cpu_count (nl "CPU0 CPU1" +:+ nl "5: 10 x IO-APIC") = 2 /\
  split (nl "5: 10 x IO-APIC") !! 2 = Some "x" /\
  int "x" = Raise (ValueError "x") /\
  get_irq_statistics (nl "CPU0 CPU1" +:+ nl "5: 10 x IO-APIC")
    = Some (Ok [("5", [10%Z])]) /\
  forall body e, get_irq_statistics (nl "CPU0" +:+ body) <> Some (Raise e).
Proof.
  split; [vm_compute; reflexivity|]. split; [vm_compute; reflexivity|].
  split; [vm_compute; reflexivity|]. split; [vm_compute; reflexivity|].
  intros body e Hraise.
  assert (header_cpu_count (nl "CPU0" +:+ body) = 1) as Hcount.
  { unfold header_cpu_count, header_line, io_open. reflexivity. }
  rewrite get_irq_statistics_rows, Hcount in Hraise. injection Hraise as Hraise.
  destruct (rows_raise _ _ _ _ (table_body_not_short _) Hraise)
    as (line & y & _ & Hy & _).
  unfold count_columns, slice in Hy. simpl in Hy. inversion Hy.
Qed.

(** C6, as the code has it: the loop of [get_irq_statistics] ends on every
    text.  Only the lines in front of the first body line with at most one
    token count (the end of the file acts as such a line), whatever comes
    after: the result is that of taking these lines one by one.  The
    function returns a table exactly when each of them passes; otherwise
    it raises the [ValueError] of a count column of one of them. *)
Theorem get_irq_statistics_stops text :
  let cpu_count := header_cpu_count text in
  let f := body_lines text in
  exists r,
    (forall fuel, length f < fuel -> while_loop fuel cpu_count f [] = Some r) /\
    get_irq_statistics text = Some r /\
    r = rows cpu_count (table_body f) [] /\
    (forall pre short rest,
       f = pre ++ short :: rest ->
       Forall (fun l => short_line l = false) pre -> short_line short = true ->
       r = rows cpu_count pre []) /\
    (Forall (fun l => short_line l = false) f -> r = rows cpu_count f []) /\
    ((exists table, r = Ok table) <-> Forall (passes cpu_count) (table_body f)) /\
    (forall e, r = Raise e ->
       exists line y, line ∈ table_body f /\ y ∈ count_columns cpu_count line /\
         int y = Raise (ValueError y) /\ e = ValueError y).
Proof.
  intros cpu_count f. exists (rows cpu_count (table_body f) []).
  split; [|split; [|split; [|split; [|split; [|split]]]]].
  - intros fuel Hfuel. apply while_loop_rows.
    pose proof (table_body_length f). lia.
  - apply get_irq_statistics_rows.
  - reflexivity.
  - intros pre short rest -> Hpre Hshort.
    rewrite (table_body_stop pre short rest Hpre Hshort). reflexivity.
  - intros Hall. rewrite (table_body_all f Hall). reflexivity.
  - split.
    + intros [table Htable].
      eapply rows_ok_passes; [apply table_body_not_short|exact Htable].
    + intros Hall. apply rows_passes. exact Hall.
  - intros e He.
    destruct (rows_raise _ _ _ _ (table_body_not_short _) He)
      as (line & y & Hl & Hy & Hyn & ->).
    exists line, y. split; [exact Hl|]. split; [exact Hy|].
    split; [unfold int; rewrite Hyn|]; reflexivity.
Qed.

(** C6 as stated fails: with header [CPU0 CPU1] and the line [5: x 0] the
    function does not return; it raises at the line in front of the end of
    the file. *)
Lemma get_irq_statistics_raises_before_stop :
  get_irq_statistics (nl "CPU0 CPU1" +:+ nl "5: x 0")
    = Some (Raise (ValueError "x")).
Proof. vm_compute. reflexivity. Qed.

Lemma stored_counts_entry text table name vec :
  get_irq_statistics text = Some (Ok table) ->
  (name, vec) ∈ table ->
  exists line,
    line ∈ table_body (body_lines text) /\
    irq_name_of line = Some name /\
    int_each (count_columns (header_cpu_count text) line) = Ok vec.
Proof.
  rewrite get_irq_statistics_rows. intros [= Hrows] Hin.
  destruct (rows_entries _ _ _ _ _ _ Hrows Hin) as [Hnil|(line & Hline & Hparse)];
    [inversion Hnil|].
  apply parse_line_stored in Hparse as [Hname Hints]. eauto.
Qed.

(** C8, as the code has it: every count stored in the table is the integer
    [int] reads from a count column of the line stored under that name; it
    is negative only if the column starts with a minus sign, which [int]
    accepts. *)
Theorem stored_counts_signed text table name vec :
  get_irq_statistics text = Some (Ok table) ->
  (name, vec) ∈ table ->
  exists line,
    line ∈ table_body (body_lines text) /\
    irq_name_of line = Some name /\
    Forall2 (fun x v => int x = Ok v /\ ((v < 0)%Z -> exists x', x = String "-" x'))
      (count_columns (header_cpu_count text) line) vec.
Proof.
  intros Hget Hin.
  destruct (stored_counts_entry text table name vec Hget Hin)
    as (line & Hline & Hname & Hints).
  exists line. split; [exact Hline|]. split; [exact Hname|].
  apply int_each_ok in Hints.
  eapply Forall2_impl; [exact Hints|].
  intros x v Hx. split; [unfold int; rewrite Hx; reflexivity|].
  apply int_opt_negative. exact Hx.
Qed.

Lemma stored_counts_signed_witness :
  let text := nl "CPU0 CPU1 CPU2" +:+ nl "5: 10 -3 IO-APIC" in
  exists line,
    line ∈ table_body (body_lines text) /\
    irq_name_of line = Some "5" /\
    Forall2 (fun x v => int x = Ok v /\ ((v < 0)%Z -> exists x', x = String "-" x'))
      (count_columns (header_cpu_count text) line) [10; -3]%Z.
Proof.
  intros text.
  apply (stored_counts_signed text [("5", [10; -3]%Z)] "5" [10; -3]%Z).
  - vm_compute. reflexivity.
  - left.
Defined.

(** C8 as stated fails: the column [-3] is stored as the count -3. *)
Lemma stored_count_negative :
  get_irq_statistics (nl "CPU0 CPU1" +:+ nl "5: -3 0")
    = Some (Ok [("5", [(-3)%Z])]).
Proof. vm_compute. reflexivity. Qed.

(** The length of a stored count sequence: the columns after the name, cut
    at one less than the number of CPU labels.  With a header that is not
    empty it is below [cpu_count]. *)
Lemma stored_counts_length text table name vec :
  get_irq_statistics text = Some (Ok table) ->
  (name, vec) ∈ table ->
  length vec <= header_cpu_count text - 1.
Proof.
  intros Hget Hin.
  destruct (stored_counts_entry text table name vec Hget Hin)
    as (line & _ & _ & Hints).
  apply int_each_ok, Forall2_length in Hints. rewrite <- Hints.
  unfold count_columns, slice. rewrite length_take. lia.
Qed.

(** ** Vectors of counts *)

Lemma count_nonzero_from_shift vec : forall count,
  count_nonzero_from count vec = (count + count_nonzero_values vec)%Z.
Proof.
  unfold count_nonzero_values.
  induction vec as [|x vec IH]; intros count; simpl; [lia|].
  destruct (negb (x =? 0)%Z).
  - rewrite (IH (count + 1)%Z), (IH (0 + 1)%Z). lia.
  - apply IH.
Qed.

Lemma count_nonzero_values_cons x vec :
  count_nonzero_values (x :: vec) =
    ((if negb (x =? 0)%Z then 1 else 0) + count_nonzero_values vec)%Z.
Proof.
  unfold count_nonzero_values at 1. simpl.
  destruct (negb (x =? 0)%Z); rewrite count_nonzero_from_shift; lia.
Qed.

Lemma count_nonzero_values_nonneg vec : (0 <= count_nonzero_values vec)%Z.
Proof.
  induction vec as [|x vec IH]; [reflexivity|].
  rewrite count_nonzero_values_cons. destruct (negb (x =? 0)%Z); lia.
Qed.

Lemma count_nonzero_values_zero vec :
  count_nonzero_values vec = 0%Z <-> Forall (fun x => x = 0%Z) vec.
Proof.
  induction vec as [|x vec IH]; [split; [constructor|reflexivity]|].
  rewrite count_nonzero_values_cons.
  pose proof (count_nonzero_values_nonneg vec).
  destruct (Z.eqb_spec x 0) as [->|Hx]; simpl.
  - rewrite IH. split; [constructor; [reflexivity|assumption]|].
    intros Hall. inversion Hall; assumption.
  - split; [lia|]. intros Hall. inversion Hall; contradiction.
Qed.

Lemma get_nonzero_index_from_shift vec : forall index,
  get_nonzero_index_from index vec = (fun i => index + i) <$> get_nonzero_index vec.
Proof.
  unfold get_nonzero_index.
  induction vec as [|x vec IH]; intros index; simpl; [reflexivity|].
  destruct (negb (x =? 0)%Z); simpl; [f_equal; lia|].
  rewrite (IH (index + 1)), (IH 1).
  destruct (get_nonzero_index_from 0 vec); simpl; [f_equal; lia|reflexivity].
Qed.

Lemma get_nonzero_index_cons x vec :
  get_nonzero_index (x :: vec) =
    if negb (x =? 0)%Z then Some 0 else S <$> get_nonzero_index vec.
Proof.
  unfold get_nonzero_index at 1. simpl.
  destruct (negb (x =? 0)%Z); [reflexivity|].
  rewrite get_nonzero_index_from_shift. reflexivity.
Qed.

(** With all entries zero the loop of [get_nonzero_index] runs to its end. *)
Lemma get_nonzero_index_zeros vec :
  Forall (fun x => x = 0%Z) vec -> get_nonzero_index vec = None.
Proof.
  induction 1 as [|x vec -> _ IH]; [reflexivity|].
  rewrite get_nonzero_index_cons. simpl. rewrite IH. reflexivity.
Qed.

Lemma zeros_lookup vec j w :
  Forall (fun x => x = 0%Z) vec -> vec !! j = Some w -> w = 0%Z.
Proof.
  intros Hall Hj. rewrite Forall_forall in Hall. apply Hall.
  eapply list_elem_of_lookup_2. exact Hj.
Qed.

(** A count of one means one entry that is not zero, and
    [get_nonzero_index] finds its index. *)
Lemma count_one_only_nonzero vec :
  count_nonzero_values vec = 1%Z ->
  exists i v, get_nonzero_index vec = Some i /\ only_nonzero vec i v.
Proof.
  induction vec as [|x vec IH]; [discriminate|].
  rewrite count_nonzero_values_cons, get_nonzero_index_cons.
  destruct (Z.eqb_spec x 0) as [->|Hx]; simpl.
  - intros Hcount. destruct IH as (i & v & -> & Hi & Hv & Huniq); [lia|].
    exists (S i), v. split; [reflexivity|]. split; [exact Hi|]. split; [exact Hv|].
    intros [|j] w Hj Hw; simpl in Hj; [congruence|].
    f_equal. eapply Huniq; eassumption.
  - intros Hcount. assert (count_nonzero_values vec = 0%Z) as Hzero by lia.
    apply count_nonzero_values_zero in Hzero.
    exists 0, x. split; [reflexivity|]. split; [reflexivity|]. split; [exact Hx|].
    intros [|j] w Hj Hw; [reflexivity|]. simpl in Hj.
    exfalso. apply Hw. eapply zeros_lookup; eassumption.
Qed.

Lemma only_nonzero_count vec : forall i v,
  only_nonzero vec i v ->
  count_nonzero_values vec = 1%Z /\ get_nonzero_index vec = Some i.
Proof.
  induction vec as [|x vec IH]; intros i v (Hi & Hv & Huniq);
    [destruct i; discriminate|].
  rewrite count_nonzero_values_cons, get_nonzero_index_cons.
  destruct (Z.eqb_spec x 0) as [->|Hx]; simpl.
  - destruct i as [|i]; [simpl in Hi; congruence|].
    destruct (IH i v) as [-> ->]; [|split; reflexivity].
    split; [exact Hi|]. split; [exact Hv|].
    intros j w Hj Hw. specialize (Huniq (S j) w Hj Hw). lia.
  - assert (i = 0) as -> by (symmetry; apply (Huniq 0 x); [reflexivity|exact Hx]).
    assert (Forall (fun y => y = 0%Z) vec) as Hzeros.
    { apply Forall_forall. intros y Hy.
      apply list_elem_of_lookup_1 in Hy as [j Hj].
      destruct (Z.eq_dec y 0%Z) as [E|E]; [exact E|].
      specialize (Huniq (S j) y Hj E). discriminate. }
    apply count_nonzero_values_zero in Hzeros. rewrite Hzeros.
    split; reflexivity.
Qed.

(** [get_nonzero_index] returns [None] for the vectors of zeros only; with
    several entries that are not zero it returns the index of the first. *)
Lemma get_nonzero_index_none vec :
  get_nonzero_index vec = None <-> Forall (fun x => x = 0%Z) vec.
Proof.
  split; [|apply get_nonzero_index_zeros].
  induction vec as [|x vec IH]; [constructor|].
  rewrite get_nonzero_index_cons. destruct (Z.eqb_spec x 0) as [->|Hx]; simpl;
    [|discriminate].
  destruct (get_nonzero_index vec); [discriminate|].
  intros _. constructor; [reflexivity|apply IH; reflexivity].
Qed.

(** C10: for a vector with exactly one entry that is not zero
    ([count_nonzero_values] is 1) [get_nonzero_index] returns the index of
    that entry, the only index with an entry that is not zero; for a vector
    of zeros it returns [None]. *)
Theorem get_nonzero_index_unique vec :
  (count_nonzero_values vec = 1%Z ->
   exists i v, get_nonzero_index vec = Some i /\ only_nonzero vec i v) /\
  (Forall (fun x => x = 0%Z) vec -> get_nonzero_index vec = None).
Proof.
  split; [apply count_one_only_nonzero|apply get_nonzero_index_zeros].
Qed.

Lemma get_nonzero_index_unique_witness :
  (exists i v, get_nonzero_index [0; 5; 0]%Z = Some i /\
     only_nonzero [0; 5; 0]%Z i v) /\
  get_nonzero_index [0; 0]%Z = None.
Proof.
  split.
  - apply (get_nonzero_index_unique [0; 5; 0]%Z). reflexivity.
  - apply (get_nonzero_index_unique [0; 0]%Z). repeat constructor.
Defined.

(** ** The sum per CPU *)

Lemma for_body_count_one irqs irqs_per_cpu irq vec i v :
  dict_getitem irqs irq = Ok vec ->
  only_nonzero vec i v ->
  for_body irqs irqs_per_cpu irq =
    (old ← list_getitem irqs_per_cpu i; Ok (<[i := (old + v)%Z]> irqs_per_cpu)).
Proof.
  intros Hget Hone. destruct (only_nonzero_count vec i v Hone) as [Hcount Hindex].
  destruct Hone as (Hi & _). unfold for_body. rewrite Hget. simpl.
  rewrite Hcount. simpl. rewrite Hindex.
  destruct (list_getitem irqs_per_cpu i) as [old|e]; simpl; [|reflexivity].
  unfold list_getitem. rewrite Hi. reflexivity.
Qed.

Lemma for_body_count_other irqs irqs_per_cpu irq vec :
  dict_getitem irqs irq = Ok vec ->
  count_nonzero_values vec <> 1%Z ->
  for_body irqs irqs_per_cpu irq = Ok irqs_per_cpu.
Proof.
  intros Hget Hcount. unfold for_body. rewrite Hget. simpl.
  destruct (Z.eqb_spec (count_nonzero_values vec) 1); [contradiction|reflexivity].
Qed.

(** One pass of the loop over the table, for the count sequence [vec]
    of the interrupt [irq].  If exactly one entry of [vec] is not zero, its
    value is added to the slot of [irqs_per_cpu] at the index of that entry
    and the other slots stay as they are; if no entry or at least two
    entries are not zero, [irqs_per_cpu] stays as it is. *)
Theorem for_body_exclusive irqs irqs_per_cpu irq vec :
  dict_getitem irqs irq = Ok vec ->
  (forall i v, only_nonzero vec i v -> i < length irqs_per_cpu ->
     exists old, irqs_per_cpu !! i = Some old /\
       for_body irqs irqs_per_cpu irq = Ok (<[i := (old + v)%Z]> irqs_per_cpu)) /\
  (Forall (fun x => x = 0%Z) vec ->
     for_body irqs irqs_per_cpu irq = Ok irqs_per_cpu) /\
  (forall i j a b, i <> j ->
     vec !! i = Some a -> a <> 0%Z -> vec !! j = Some b -> b <> 0%Z ->
     for_body irqs irqs_per_cpu irq = Ok irqs_per_cpu).
Proof.
  intros Hget. split; [|split].
  - intros i v Hone Hi.
    destruct (lookup_lt_is_Some_2 irqs_per_cpu i Hi) as [old Hold].
    exists old. split; [exact Hold|].
    rewrite (for_body_count_one _ _ _ _ _ _ Hget Hone).
    unfold list_getitem. rewrite Hold. reflexivity.
  - intros Hzeros. apply (for_body_count_other _ _ _ _ Hget).
    apply count_nonzero_values_zero in Hzeros. lia.
  - intros i j a b Hij Ha Ha0 Hb Hb0.
    apply (for_body_count_other _ _ _ _ Hget). intros Hcount.
    destruct (count_one_only_nonzero vec Hcount) as (k & w & _ & _ & _ & Huniq).
    apply Hij. rewrite (Huniq i a Ha Ha0), (Huniq j b Hb Hb0). reflexivity.
Qed.

Lemma for_body_exclusive_witness :
  let irqs := [("16", [0; 7; 0]); ("17", [0; 0; 0]); ("18", [3; 0; 4])]%Z in
  for_body irqs [1; 2; 3]%Z "16" = Ok [1; 9; 3]%Z /\
  for_body irqs [1; 2; 3]%Z "17" = Ok [1; 2; 3]%Z /\
  for_body irqs [1; 2; 3]%Z "18" = Ok [1; 2; 3]%Z.
Proof.
  intros irqs. split; [|split].
  - destruct (for_body_exclusive irqs [1; 2; 3]%Z "16" [0; 7; 0]%Z eq_refl)
      as (Hone & _ & _).
    destruct (Hone 1 7%Z) as (old & Hold & ->).
    + split; [reflexivity|]. split; [discriminate|].
      intros [|[|[|j]]] w [= <-] Hw; try reflexivity; contradiction.
    + simpl. lia.
    + injection Hold as <-. reflexivity.
  - apply (for_body_exclusive irqs [1; 2; 3]%Z "17" [0; 0; 0]%Z eq_refl).
    repeat constructor.
  - apply (for_body_exclusive irqs [1; 2; 3]%Z "18" [3; 0; 4]%Z eq_refl)
      with (i := 0) (j := 2) (a := 3%Z) (b := 4%Z);
      (reflexivity || discriminate).
Defined.

(** The loop never raises when every count sequence fits the array. *)
Lemma dict_getitem_key irqs irq :
  irq ∈ dict_keys irqs ->
  exists vec, dict_getitem irqs irq = Ok vec /\ (irq, vec) ∈ irqs.
Proof.
  unfold dict_keys. induction irqs as [|[k v] irqs IH]; simpl;
    [intros H; inversion H|].
  intros Hin. destruct (String.eqb_spec k irq) as [->|Hne].
  - exists v. split; [reflexivity|left].
  - apply elem_of_cons in Hin as [->|Hin]; [contradiction|].
    destruct (IH Hin) as (vec & Hget & Hvec).
    exists vec. split; [exact Hget|right; exact Hvec].
Qed.

Lemma get_nonzero_index_bound vec i :
  get_nonzero_index vec = Some i -> i < length vec.
Proof.
  revert i. induction vec as [|x vec IH]; intros i; [discriminate|].
  rewrite get_nonzero_index_cons. destruct (negb (x =? 0)%Z).
  - intros [= <-]. simpl. lia.
  - destruct (get_nonzero_index vec) as [k|]; [|discriminate].
    intros [= <-]. specialize (IH k eq_refl). simpl. lia.
Qed.

Lemma for_body_fits irqs irqs_per_cpu irq vec :
  dict_getitem irqs irq = Ok vec ->
  length vec <= length irqs_per_cpu ->
  exists irqs_per_cpu',
    for_body irqs irqs_per_cpu irq = Ok irqs_per_cpu' /\
    length irqs_per_cpu' = length irqs_per_cpu.
Proof.
  intros Hget Hlen.
  destruct (Z.eq_dec (count_nonzero_values vec) 1%Z) as [Hcount|Hcount].
  - destruct (count_one_only_nonzero vec Hcount) as (i & v & Hindex & Hone).
    apply get_nonzero_index_bound in Hindex.
    rewrite (for_body_count_one _ _ _ _ _ _ Hget Hone).
    destruct (lookup_lt_is_Some_2 irqs_per_cpu i) as [old Hold]; [lia|].
    unfold list_getitem. rewrite Hold. simpl.
    eexists. split; [reflexivity|]. apply length_insert.
  - rewrite (for_body_count_other _ _ _ _ Hget Hcount). eauto.
Qed.

Lemma for_loop_fits irqs keys : forall irqs_per_cpu,
  (forall irq, irq ∈ keys ->
     exists vec, dict_getitem irqs irq = Ok vec /\ length vec <= length irqs_per_cpu) ->
  exists irqs_per_cpu',
    for_loop irqs keys irqs_per_cpu = Ok irqs_per_cpu' /\
    length irqs_per_cpu' = length irqs_per_cpu.
Proof.
  induction keys as [|irq keys IH]; intros irqs_per_cpu Hkeys; simpl; [eauto|].
  destruct (Hkeys irq) as (vec & Hget & Hlen); [left|].
  destruct (for_body_fits _ _ _ _ Hget Hlen) as (acc & -> & Hacc). simpl.
  destruct (IH acc) as (acc' & Hloop & Hacc').
  - intros k Hk. rewrite Hacc. apply Hkeys. right. exact Hk.
  - exists acc'. split; [exact Hloop|]. lia.
Qed.

(** On a machine whose processor count is not below the number of count
    columns the parser keeps, the sum is computed for every table that
    parses. *)
Lemma main_irqs_fits cpu_count text table :
  header_cpu_count text - 1 <= cpu_count ->
  get_irq_statistics text = Some (Ok table) ->
  exists load, main_irqs cpu_count text = Some (Ok load) /\ length load = cpu_count.
Proof.
  intros Hcount Hget. unfold main_irqs. rewrite Hget. simpl.
  unfold exclusive_load.
  destruct (for_loop_fits table (dict_keys table) (replicate cpu_count 0%Z))
    as (load & Hload & Hlen).
  - intros irq Hirq. destruct (dict_getitem_key _ _ Hirq) as (vec & Hvec & Hin).
    exists vec. split; [exact Hvec|].
    pose proof (stored_counts_length _ _ _ _ Hget Hin).
    rewrite length_replicate. lia.
  - exists load. rewrite length_replicate in Hlen. split; [rewrite Hload|]; auto.
Qed.

(** ** The marker scan *)

Lemma starts_with_spec sub : forall mem,
  starts_with sub mem = true <-> exists after, mem = sub ++ after.
Proof.
  induction sub as [|b sub IH]; intros mem; simpl.
  - split; [eauto|reflexivity].
  - destruct mem as [|m mem].
    + split; [discriminate|]. intros [after H]. discriminate.
    + rewrite andb_true_iff, IH. split.
      * intros [Hb [after ->]]. apply Strings.Byte.byte_dec_bl in Hb as ->. eauto.
      * intros [after [= -> ->]]. split; [|eauto].
        apply Strings.Byte.byte_dec_lb. reflexivity.
Qed.

Lemma occurs_cons sub m mem :
  occurs sub (m :: mem) <-> starts_with sub (m :: mem) = true \/ occurs sub mem.
Proof.
  rewrite starts_with_spec. unfold occurs. split.
  - intros ([|b before] & after & H).
    + left. eauto.
    + right. injection H as _ ->. eauto.
  - intros [[after ->]|(before & after & ->)].
    + exists [], after. reflexivity.
    + exists (m :: before), after. reflexivity.
Qed.

Lemma find_from_found sub mem : forall index,
  find_from index mem sub <> (-1)%Z -> occurs sub mem.
Proof.
  induction mem as [|m mem IH]; intros index; cbn [find_from].
  - destruct (starts_with sub []) eqn:Hsw; [|contradiction].
    intros _. apply starts_with_spec in Hsw as [after ->].
    exists [], after. reflexivity.
  - intros Hfound. apply occurs_cons.
    destruct (starts_with sub (m :: mem)); [left; reflexivity|].
    right. eapply IH. exact Hfound.
Qed.

Lemma find_from_missing sub mem : forall index,
  (0 <= index)%Z -> find_from index mem sub = (-1)%Z -> ~ occurs sub mem.
Proof.
  induction mem as [|m mem IH]; intros index Hindex; cbn [find_from].
  - destruct (starts_with sub []) eqn:Hsw; [lia|].
    intros _ (before & after & H).
    symmetry in H. apply app_eq_nil in H as [_ H].
    apply app_eq_nil in H as [-> _]. discriminate Hsw.
  - rewrite occurs_cons.
    destruct (starts_with sub (m :: mem)); [lia|].
    intros Hmissing [H|H]; [discriminate|].
    exact (IH (index + 1)%Z ltac:(lia) Hmissing H).
Qed.

(** [find] returns -1 exactly when [sub] does not occur in [mem]. *)
Lemma find_spec mem sub : find mem sub = (-1)%Z <-> ~ occurs sub mem.
Proof.
  unfold find. split; [apply find_from_missing; lia|].
  intros Hno. destruct (Z.eq_dec (find_from 0 mem sub) (-1)%Z) as [H|H];
    [exact H|].
  exfalso. apply Hno. eapply find_from_found. exact H.
Qed.

Lemma find_found mem sub : find mem sub <> (-1)%Z <-> occurs sub mem.
Proof.
  split; [apply find_from_found|].
  intros Hocc Hminus. apply find_spec in Hminus. contradiction.
Qed.

Lemma found_not_found_differ marker marker' :
  found_line marker <> not_found_line marker'.
Proof. unfold found_line, not_found_line. simpl. discriminate. Qed.

Lemma scan_markers_app mem markers : forall out,
  scan_markers mem markers out = out ++ scan_markers mem markers [].
Proof.
  induction markers as [|marker markers IH]; intros out; simpl;
    [symmetry; apply app_nil_r|].
  destruct (_ =? _)%Z; rewrite IH, (IH (print [] _)); unfold print; simpl;
    rewrite <- app_assoc; reflexivity.
Qed.

(** C3: the loop over the markers prints one line per marker, in the order
    of the markers; the line of a marker is the one that says found if and
    only if the bytes of the marker occur in the content as a contiguous
    run, and the one that says not found otherwise. *)
Theorem scan_markers_reports mem markers out :
  exists results,
    scan_markers mem markers out = out ++ results /\
    Forall2 (fun marker line =>
               (line = found_line marker <-> occurs (bytes_utf8 marker) mem) /\
               (line = not_found_line marker <-> ~ occurs (bytes_utf8 marker) mem))
      markers results.
Proof.
  exists (scan_markers mem markers []). split; [apply scan_markers_app|].
  induction markers as [|marker markers IH]; [constructor|].
  cbn [scan_markers]. rewrite scan_markers_app.
  pose proof (find_spec mem (bytes_utf8 marker)) as Hfind.
  pose proof (found_not_found_differ marker marker) as Hdiff.
  destruct (Z.eqb_spec (find mem (bytes_utf8 marker)) (-1)) as [Hminus|Hindex];
    (constructor; [|exact IH]).
  - apply Hfind in Hminus. split; split; try tauto; try congruence.
  - apply find_found in Hindex. split; split; try tauto; try congruence.
Qed.

(** The step of lines 133 to 150 gets to the loop for every file that opens
    on a descriptor other than 0 and is not empty. *)
Lemma scan_step_scans fd b content markers out :
  scan_step (open_returns (S fd) (b :: content)) markers out =
    (scan_markers (b :: content) markers out, None).
Proof. reflexivity. Qed.

Lemma scan_markers_absent mem markers :
  (forall marker, marker ∈ markers -> ~ occurs (bytes_utf8 marker) mem) ->
  scan_markers mem markers [] = not_found_line <$> markers.
Proof.
  induction markers as [|marker markers IH]; intros Habsent; [reflexivity|].
  cbn [scan_markers]. rewrite scan_markers_app.
  assert (find mem (bytes_utf8 marker) = (-1)%Z) as ->.
  { apply find_spec, Habsent. left. }
  simpl. f_equal. apply IH. intros m Hm. apply Habsent. right. exact Hm.
Qed.

Lemma could_not_open_not_result : ~ is_marker_result could_not_open_line.
Proof.
  intros [marker [H|H]]; unfold found_line, not_found_line in H; simpl in H;
    discriminate.
Qed.

Lemma skipped_not_result : ~ is_marker_result skipped_line.
Proof.
  intros [marker [H|H]]; unfold found_line, not_found_line in H; simpl in H;
    discriminate.
Qed.

Lemma result_not_skipped line : is_marker_result line -> ~ is_skipped line.
Proof.
  intros [marker [->| ->]] [message H];
    unfold found_line, not_found_line in H; simpl in H; discriminate.
Qed.

(** C7: when [os.open] raises, the step prints the line that the file could
    not be opened and then exactly one line tagged [SKIP]; neither is the
    result of a marker.  A scan in which every marker is absent prints one
    not-found line per marker and no line tagged [SKIP], so the two outputs
    differ for every list of markers. *)
Theorem scan_step_skipped e markers out :
  scan_step (open_raises e) markers out
    = (out ++ [could_not_open_line; skipped_line], None) /\
  is_skipped skipped_line /\ ~ is_skipped could_not_open_line /\
  ~ is_marker_result could_not_open_line /\ ~ is_marker_result skipped_line /\
  (forall fd content markers',
     content <> [] ->
     (forall marker, marker ∈ markers' -> ~ occurs (bytes_utf8 marker) content) ->
     scan_step (open_returns (S fd) content) markers' out
       = (out ++ (not_found_line <$> markers'), None) /\
     Forall (fun line => is_marker_result line /\ ~ is_skipped line)
       (not_found_line <$> markers') /\
     scan_step (open_returns (S fd) content) markers' out
       <> scan_step (open_raises e) markers out).
Proof.
  assert (forall marker, is_marker_result (not_found_line marker)) as Hres.
  { intros marker. exists marker. right. reflexivity. }
  split; [|split; [|split; [|split; [|split]]]].
  - unfold scan_step, print. rewrite <- app_assoc. reflexivity.
  - exists "no irqbalance executable, cannot test markers". reflexivity.
  - intros [message H]. unfold could_not_open_line in H. simpl in H. discriminate.
  - exact could_not_open_not_result.
  - exact skipped_not_result.
  - intros fd [|b content] markers' Hcontent Habsent; [contradiction|].
    rewrite scan_step_scans, scan_markers_app, (scan_markers_absent _ _ Habsent).
    split; [reflexivity|]. split.
    + apply Forall_fmap, Forall_forall. intros marker _. simpl.
      split; [apply Hres|apply result_not_skipped, Hres].
    + unfold scan_step, print. rewrite <- app_assoc.
      intros H. apply (f_equal fst) in H. cbn [fst] in H.
      apply app_inv_head in H.
      destruct markers' as [|marker markers']; [discriminate|].
      apply (f_equal head) in H. cbn [head fmap list_fmap app] in H.
      apply could_not_open_not_result.
      replace could_not_open_line with (not_found_line marker) by congruence.
      apply Hres.
Qed.

Lemma scan_step_skipped_witness :
  scan_step (open_raises OSError) MARKERS []
    = ([could_not_open_line; skipped_line], None) /\
  scan_step (open_returns 3 [Init.Byte.x7f; Init.Byte.x45]) MARKERS []
    <> scan_step (open_raises OSError) MARKERS [].
Proof.
  split.
  - apply (scan_step_skipped OSError MARKERS []).
  - apply (scan_step_skipped OSError MARKERS []).
    + discriminate.
    + intros marker Hin. apply find_spec.
      repeat (apply elem_of_cons in Hin as [->|Hin]; [vm_compute; reflexivity|]).
      inversion Hin.
Defined.

(** ** [read_one_line] *)

Lemma lookup_name_e : lookup_name "e" = Raise (NameError "e").
Proof. vm_compute. reflexivity. Qed.

(** When opening or reading raises, evaluating the name after [except]
    raises in turn, and that [NameError] leaves the function. *)
Lemma read_one_line_raises (fs : filesystem) path e :
  fs path = Raise e -> read_one_line fs path = Raise (NameError "e").
Proof.
  intros Hfs. unfold read_one_line, try_except. rewrite Hfs.
  unfold mbind, res_bind. rewrite lookup_name_e. reflexivity.
Qed.

(** When the file can be read, the first line comes back stripped. *)
Lemma read_one_line_reads (fs : filesystem) path text :
  fs path = Ok text ->
  read_one_line fs path = Ok (Some (strip isspace (readline (io_open text)).1)).
Proof. intros Hfs. unfold read_one_line. rewrite Hfs. reflexivity. Qed.

(** C9: on a path that cannot be opened or read, whatever the error,
    [read_one_line] does not return [None]: it raises [NameError], against
    the specification and against the comment above the function. *)
Theorem read_one_line_propagates path e :
  read_one_line (fun _ => Raise e) path = Raise (NameError "e").
Proof. apply (read_one_line_raises _ path e). reflexivity. Qed.

(** ** The sum per CPU, over the whole table *)

Lemma others_zero_spec vec j :
  others_zero vec j = true <->
  forall k w, k <> j -> vec !! k = Some w -> w = 0%Z.
Proof.
  unfold others_zero. rewrite forallb_forall. split.
  - intros Hall k w Hk Hw. apply Z.eqb_eq, Hall, list_elem_of_In.
    apply elem_of_app. destruct (decide (k < j)) as [Hlt|Hge].
    + left. apply list_elem_of_lookup. exists k.
      rewrite lookup_take_lt by exact Hlt. exact Hw.
    + right. apply list_elem_of_lookup. exists (k - S j).
      rewrite lookup_drop. replace (S j + (k - S j)) with k by lia. exact Hw.
  - intros Hzero x Hx. apply Z.eqb_eq.
    apply list_elem_of_In, elem_of_app in Hx as [Hx|Hx];
      apply list_elem_of_lookup in Hx as [k Hk].
    + pose proof (lookup_lt_Some _ _ _ Hk) as Hlen.
      rewrite length_take in Hlen.
      rewrite lookup_take_lt in Hk by lia. apply (Hzero k); [lia|exact Hk].
    + rewrite lookup_drop in Hk. apply (Hzero (S j + k)); [lia|exact Hk].
Qed.

Lemma share_only_nonzero vec i v j :
  only_nonzero vec i v -> share vec j = if decide (i = j) then v else 0%Z.
Proof.
  intros (Hi & Hv & Huniq). unfold share. destruct (decide (i = j)) as [<-|Hij].
  - rewrite Hi. assert (others_zero vec i = true) as ->; [|reflexivity].
    apply others_zero_spec. intros k w Hk Hw.
    destruct (Z.eq_dec w 0%Z) as [E|E]; [exact E|].
    exfalso. apply Hk. eapply Huniq; eassumption.
  - destruct (vec !! j) as [w|] eqn:Hj; [|reflexivity].
    destruct (others_zero vec j) eqn:Hothers; [|reflexivity].
    destruct (Z.eq_dec w 0%Z) as [E|E]; [exact E|].
    exfalso. apply Hij. symmetry. eapply Huniq; eassumption.
Qed.

Lemma share_count_other vec j :
  count_nonzero_values vec <> 1%Z -> share vec j = 0%Z.
Proof.
  intros Hcount. unfold share. destruct (vec !! j) as [w|] eqn:Hj; [|reflexivity].
  destruct (others_zero vec j) eqn:Hothers; [|reflexivity].
  destruct (Z.eq_dec w 0%Z) as [E|E]; [exact E|].
  exfalso. apply Hcount. apply (only_nonzero_count vec j w).
  split; [exact Hj|]. split; [exact E|].
  intros k x Hk Hx. destruct (decide (k = j)) as [Hkj|Hkj]; [exact Hkj|].
  exfalso. apply Hx. rewrite others_zero_spec in Hothers.
  eapply Hothers; eassumption.
Qed.

(** One pass adds to every slot the share of the count sequence. *)
Lemma for_body_share irqs irqs_per_cpu irq vec irqs_per_cpu' :
  dict_getitem irqs irq = Ok vec ->
  for_body irqs irqs_per_cpu irq = Ok irqs_per_cpu' ->
  length irqs_per_cpu' = length irqs_per_cpu /\
  forall j a, irqs_per_cpu !! j = Some a ->
    irqs_per_cpu' !! j = Some (a + share vec j)%Z.
Proof.
  intros Hget.
  destruct (Z.eq_dec (count_nonzero_values vec) 1%Z) as [Hcount|Hcount].
  - destruct (count_one_only_nonzero vec Hcount) as (i & v & _ & Hone).
    rewrite (for_body_count_one _ _ _ _ _ _ Hget Hone). unfold list_getitem.
    destruct (irqs_per_cpu !! i) as [old|] eqn:Hold; simpl; [|discriminate].
    intros [= <-]. split; [apply length_insert|].
    intros j a Hj. rewrite (share_only_nonzero _ _ _ j Hone).
    destruct (decide (i = j)) as [<-|Hij].
    + rewrite list_lookup_insert_eq by (eapply lookup_lt_Some; exact Hold).
      congruence.
    + rewrite list_lookup_insert_ne by exact Hij. rewrite Hj. f_equal. lia.
  - rewrite (for_body_count_other _ _ _ _ Hget Hcount). intros [= <-].
    split; [reflexivity|]. intros j a Hj.
    rewrite (share_count_other _ j Hcount), Hj. f_equal. lia.
Qed.

Lemma total_share_cons irq vec entries j :
  total_share ((irq, vec) :: entries) j = (share vec j + total_share entries j)%Z.
Proof. reflexivity. Qed.

Lemma for_loop_share irqs entries : forall irqs_per_cpu load,
  (forall irq vec, (irq, vec) ∈ entries -> dict_getitem irqs irq = Ok vec) ->
  for_loop irqs (dict_keys entries) irqs_per_cpu = Ok load ->
  length load = length irqs_per_cpu /\
  forall j a, irqs_per_cpu !! j = Some a ->
    load !! j = Some (a + total_share entries j)%Z.
Proof.
  induction entries as [|[irq vec] entries IH]; intros acc load Hget; simpl.
  - intros [= <-]. split; [reflexivity|]. intros j a ->. f_equal.
    unfold total_share. simpl. lia.
  - destruct (for_body irqs acc irq) as [acc'|e] eqn:Hbody; simpl; [|discriminate].
    intros Hloop.
    destruct (for_body_share irqs acc irq vec acc' (Hget irq vec ltac:(left)) Hbody)
      as [Hlen Hslots].
    destruct (IH acc' load) as [Hlen' Hslots'].
    { intros k w Hin. apply Hget. right. exact Hin. }
    { exact Hloop. }
    split; [lia|]. intros j a Hj.
    rewrite (Hslots' j _ (Hslots j a Hj)), total_share_cons. f_equal. lia.
Qed.

Lemma dict_getitem_nodup irqs : forall irq vec,
  NoDup (dict_keys irqs) -> (irq, vec) ∈ irqs -> dict_getitem irqs irq = Ok vec.
Proof.
  unfold dict_keys. induction irqs as [|[k v] irqs IH]; intros irq vec Hnodup Hin;
    [inversion Hin|].
  simpl in *. apply NoDup_cons in Hnodup as [Hk Hnodup].
  apply elem_of_cons in Hin as [[= -> ->]|Hin].
  - rewrite String.eqb_refl. reflexivity.
  - destruct (String.eqb_spec k irq) as [->|_]; [|apply IH; assumption].
    exfalso. apply Hk. apply list_elem_of_fmap. exists (irq, vec). auto.
Qed.

Lemma dict_setitem_keys d k v :
  dict_keys (dict_setitem d k v) =
    if bool_decide (k ∈ dict_keys d) then dict_keys d else dict_keys d ++ [k].
Proof.
  unfold dict_keys. induction d as [|[k0 v0] d IH]; [reflexivity|].
  cbn [dict_setitem].
  destruct (String.eqb_spec k0 k) as [->|Hne]; rewrite !fmap_cons; cbn [fst].
  - rewrite bool_decide_eq_true_2 by left. reflexivity.
  - rewrite IH. destruct (bool_decide (k ∈ d.*1)) eqn:Hk.
    + apply bool_decide_eq_true in Hk.
      rewrite bool_decide_eq_true_2 by (right; exact Hk). reflexivity.
    + apply bool_decide_eq_false in Hk.
      rewrite bool_decide_eq_false_2; [reflexivity|].
      intros Hin. apply elem_of_cons in Hin as [E|Hin]; [congruence|contradiction].
Qed.

Lemma dict_setitem_nodup d k v :
  NoDup (dict_keys d) -> NoDup (dict_keys (dict_setitem d k v)).
Proof.
  intros Hnodup. rewrite dict_setitem_keys.
  destruct (bool_decide (k ∈ dict_keys d)) eqn:Hk; [exact Hnodup|].
  apply bool_decide_eq_false in Hk. apply NoDup_app.
  split; [exact Hnodup|]. split; [|apply NoDup_singleton].
  intros x Hx Hx'. apply list_elem_of_singleton in Hx' as ->. contradiction.
Qed.

Lemma rows_nodup cpu_count lines : forall result table,
  NoDup (dict_keys result) -> rows cpu_count lines result = Ok table ->
  NoDup (dict_keys table).
Proof.
  induction lines as [|line lines IH]; intros result table Hnodup; simpl.
  - intros [= <-]. exact Hnodup.
  - destruct (parse_line cpu_count (split line)) as [[[k v]|]|e]; simpl;
      [| |discriminate]; apply IH; [apply dict_setitem_nodup|]; exact Hnodup.
Qed.

(** The keys of the table the parser returns are pairwise different. *)
Lemma get_irq_statistics_nodup text table :
  get_irq_statistics text = Some (Ok table) -> NoDup (dict_keys table).
Proof.
  rewrite get_irq_statistics_rows. intros [= Hrows].
  eapply rows_nodup; [|exact Hrows]. constructor.
Qed.

(** The sum over a table: slot [j] holds what the count sequences with a
    single entry that is not zero, at [j], add up to. *)
Lemma exclusive_load_shares cpu_count irqs load :
  NoDup (dict_keys irqs) ->
  exclusive_load cpu_count irqs = Ok load ->
  length load = cpu_count /\
  forall j, j < cpu_count -> load !! j = Some (total_share irqs j).
Proof.
  intros Hnodup Hload. unfold exclusive_load in Hload.
  destruct (for_loop_share irqs irqs (replicate cpu_count 0%Z) load) as [Hlen Hslots].
  - intros irq vec. apply dict_getitem_nodup, Hnodup.
  - exact Hload.
  - rewrite length_replicate in Hlen. split; [exact Hlen|].
    intros j Hj. rewrite (Hslots j 0%Z); [f_equal; lia|].
    apply lookup_replicate. auto.
Qed.

(** Lines 158 to 163 as a whole: when the script gets through them, slot
    [j] of the result is the total of the shares of the parsed table. *)
Lemma main_irqs_shares cpu_count text table load :
  get_irq_statistics text = Some (Ok table) ->
  main_irqs cpu_count text = Some (Ok load) ->
  length load = cpu_count /\
  forall j, j < cpu_count -> load !! j = Some (total_share table j).
Proof.
  intros Hget. unfold main_irqs. rewrite Hget. cbn [mbind res_bind].
  intros [= Hload]. apply exclusive_load_shares; [|exact Hload].
  eapply get_irq_statistics_nodup. exact Hget.
Qed.

(** * Further properties of the parser *)

Lemma parse_line_name cpu_count line name vec :
  parse_line cpu_count (split line) = Ok (Some (name, vec)) ->
  name <> "ERR" /\ name <> "MIS" /\
  exists c0, split line !! 0 = Some c0 /\ name = strip (Ascii.eqb ":") c0.
Proof.
  unfold parse_line, list_getitem.
  destruct (split line !! 0) as [c0|]; simpl; [|discriminate].
  destruct (String.eqb_spec (strip (Ascii.eqb ":") c0) "ERR") as [|Herr];
    [discriminate|].
  destruct (String.eqb_spec (strip (Ascii.eqb ":") c0) "MIS") as [|Hmis];
    [discriminate|].
  simpl. destruct (int_each _); simpl; [|discriminate].
  intros [= <- _]. eauto.
Qed.

Lemma table_entry_line text table name vec :
  get_irq_statistics text = Some (Ok table) ->
  (name, vec) ∈ table ->
  exists line, line ∈ table_body (body_lines text) /\
    parse_line (header_cpu_count text) (split line) = Ok (Some (name, vec)).
Proof.
  rewrite get_irq_statistics_rows. intros [= Hrows] Hin.
  destruct (rows_entries _ _ _ _ _ _ Hrows Hin) as [Hnil|Hline];
    [inversion Hnil|exact Hline].
Qed.

Lemma dict_keys_entry (d : dict) k :
  k ∈ dict_keys d -> exists v, (k, v) ∈ d.
Proof.
  unfold dict_keys. intros Hk. apply list_elem_of_fmap in Hk as ([k' v] & -> & Hin).
  eauto.
Qed.

(** X1: the table returned by [get_irq_statistics] never has the key [ERR]
    or the key [MIS], whatever the text. *)
Theorem table_never_err_mis text table :
  get_irq_statistics text = Some (Ok table) ->
  ("ERR" ∉ dict_keys table) /\ ("MIS" ∉ dict_keys table).
Proof.
  intros Hget. split; intros Hk; apply dict_keys_entry in Hk as [vec Hin];
    destruct (table_entry_line _ _ _ _ Hget Hin) as (line & _ & Hparse);
    apply parse_line_name in Hparse as (Herr & Hmis & _); congruence.
Qed.

Lemma table_never_err_mis_witness :
  ("ERR" ∉ dict_keys [("5", [1%Z])]) /\ ("MIS" ∉ dict_keys [("5", [1%Z])]).
Proof.
  apply (table_never_err_mis
           (nl "CPU0 CPU1" +:+ nl "ERR: 7 0" +:+ nl "::MIS: 1 0" +:+ nl "5: 1 0")
           [("5", [1%Z])]).
  vm_compute. reflexivity.
Defined.



Lemma dict_getitem_setitem d k v : dict_getitem (dict_setitem d k v) k = Ok v.
Proof.
  induction d as [|[k0 v0] d IH]; simpl.
  - rewrite String.eqb_refl. reflexivity.
  - destruct (String.eqb_spec k0 k) as [->|Hne]; simpl.
    + rewrite String.eqb_refl. reflexivity.
    + destruct (String.eqb_spec k0 k) as [|_]; [contradiction|exact IH].
Qed.

Lemma dict_getitem_setitem_ne d k v k' :
  k <> k' -> dict_getitem (dict_setitem d k v) k' = dict_getitem d k'.
Proof.
  intros Hne. induction d as [|[k0 v0] d IH]; simpl.
  - destruct (String.eqb_spec k k') as [|_]; [contradiction|reflexivity].
  - destruct (String.eqb_spec k0 k) as [->|Hk0]; simpl.
    + destruct (String.eqb_spec k k') as [|_]; [contradiction|].
      reflexivity.
    + destruct (String.eqb_spec k0 k'); [reflexivity|exact IH].
Qed.

(** Lines that do not carry the name leave its entry alone. *)
Lemma rows_keeps_entry cpu_count name lines : forall result table,
  Forall (fun l => irq_name_of l <> Some name) lines ->
  rows cpu_count lines result = Ok table ->
  dict_getitem table name = dict_getitem result name.
Proof.
  induction lines as [|line lines IH]; intros result table Hall; simpl.
  - intros [= <-]. reflexivity.
  - inversion Hall as [|? ? Hline Hrest]; subst.
    destruct (parse_line cpu_count (split line)) as [entry|e] eqn:Hparse; simpl;
      [|discriminate].
    intros Hrows. rewrite (IH _ _ Hrest Hrows).
    destruct entry as [[k v]|]; [|reflexivity]. simpl.
    apply dict_getitem_setitem_ne. intros ->.
    apply parse_line_stored in Hparse as [Hname _]. contradiction.
Qed.

(** X3: when several lines of the table body carry the same name, the table
    holds the counts of the last of them: looking the name up gives the
    counts of a line after which no line with that name comes. *)
Theorem last_line_wins text table before line after name vec :
  get_irq_statistics text = Some (Ok table) ->
  table_body (body_lines text) = before ++ line :: after ->
  parse_line (header_cpu_count text) (split line) = Ok (Some (name, vec)) ->
  Forall (fun l => irq_name_of l <> Some name) after ->
  dict_getitem table name = Ok vec.
Proof.
  rewrite get_irq_statistics_rows. intros [= Hrows] Hbody Hparse Hafter.
  rewrite Hbody, rows_app in Hrows.
  destruct (rows (header_cpu_count text) before []) as [r1|e]; simpl in Hrows;
    [|discriminate].
  rewrite Hparse in Hrows. simpl in Hrows.
  rewrite (rows_keeps_entry _ _ _ _ _ Hafter Hrows).
  apply dict_getitem_setitem.
Qed.

Lemma last_line_wins_witness :
  let text := nl "CPU0 CPU1 CPU2" +:+ nl "5: 1 0" +:+ nl "6: 2 2" +:+ nl "5: 0 9" +:+ nl "7: 0 0" in
  dict_getitem [("5", [0; 9]); ("6", [2; 2]); ("7", [0; 0])]%Z "5" = Ok [0; 9]%Z.
Proof.
  intros text.
  apply (last_line_wins text _ [nl "5: 1 0"; nl "6: 2 2"] (nl "5: 0 9") [nl "7: 0 0"]).
  - vm_compute. reflexivity.
  - vm_compute. reflexivity.
  - vm_compute. reflexivity.
  - repeat constructor. vm_compute. discriminate.
Defined.

Lemma parse_line_columns cpu_count columns columns' :
  take (max cpu_count 1) columns = take (max cpu_count 1) columns' ->
  parse_line cpu_count columns = parse_line cpu_count columns'.
Proof.
  intros Hsame. unfold parse_line, list_getitem, slice.
  assert (columns !! 0 = columns' !! 0) as ->.
  { rewrite <- (lookup_take_lt columns (max cpu_count 1) 0) by lia.
    rewrite <- (lookup_take_lt columns' (max cpu_count 1) 0) by lia.
    rewrite Hsame. reflexivity. }
  assert (take (cpu_count - 1) (drop 1 columns)
          = take (cpu_count - 1) (drop 1 columns')) as ->; [|reflexivity].
  rewrite !take_drop_commute.
  assert (forall l : list string,
            take (1 + (cpu_count - 1)) l
            = take (1 + (cpu_count - 1)) (take (max cpu_count 1) l)) as Hcut.
  { intros l. rewrite take_take. f_equal. lia. }
  rewrite (Hcut columns), (Hcut columns'), Hsame. reflexivity.
Qed.

(** X22: the columns after the counts (the type and the description of the
    interrupt) are not used: two lines with more than one token each that
    agree on their first [cpu_count] tokens take the loop to the same
    state. *)
Theorem description_columns_ignored cpu_count line line' f result :
  short_line line = false -> short_line line' = false ->
  take (max cpu_count 1) (split line) = take (max cpu_count 1) (split line') ->
  while_body cpu_count (line :: f) result = while_body cpu_count (line' :: f) result.
Proof.
  intros Hshort Hshort' Hsame. rewrite !while_body_cons, Hshort, Hshort'.
  rewrite (parse_line_columns cpu_count _ _ Hsame). reflexivity.
Qed.

Lemma description_columns_ignored_witness :
  while_body 3 [nl "16: 100 0 0 IO-APIC 16-fasteoi ehci_hcd"] [] =
  while_body 3 [nl "16: 100 0 7 PCI-MSI"] [].
Proof.
  apply (description_columns_ignored 3
           (nl "16: 100 0 0 IO-APIC 16-fasteoi ehci_hcd") (nl "16: 100 0 7 PCI-MSI") [] []).
  - vm_compute. reflexivity.
  - vm_compute. reflexivity.
  - vm_compute. reflexivity.
Defined.

Lemma lstrip_first drop s c :
  first_char (lstrip drop s) = Some c -> drop c = false.
Proof.
  induction s as [|a s IH]; simpl; [discriminate|].
  destruct (drop a) eqn:Ha; [exact IH|]. simpl. intros [= <-]. exact Ha.
Qed.

Lemma rstrip_first drop s c :
  first_char (rstrip drop s) = Some c -> first_char s = Some c.
Proof.
  destruct s as [|a s]; simpl; [discriminate|].
  destruct (is_empty (rstrip drop s) && drop a); [discriminate|]. exact id.
Qed.

Lemma rstrip_last drop s c :
  last_char (rstrip drop s) = Some c -> drop c = false.
Proof.
  induction s as [|a s IH]; simpl; [discriminate|].
  destruct (rstrip drop s) as [|b r] eqn:Hr; simpl.
  - destruct (drop a) eqn:Ha; simpl; [discriminate|]. intros [= <-]. exact Ha.
  - exact IH.
Qed.

Lemma lstrip_no_space drop s : no_space s = true -> no_space (lstrip drop s) = true.
Proof.
  induction s as [|a s IH]; simpl; [reflexivity|].
  intros Hs. destruct (drop a); [|exact Hs].
  apply andb_true_iff in Hs as [_ Hs]. apply IH, Hs.
Qed.

Lemma rstrip_no_space drop s : no_space s = true -> no_space (rstrip drop s) = true.
Proof.
  induction s as [|a s IH]; simpl; [reflexivity|].
  intros Hs. apply andb_true_iff in Hs as [Ha Hs].
  destruct (is_empty (rstrip drop s) && drop a); [reflexivity|].
  simpl. rewrite Ha. apply IH, Hs.
Qed.

(** What [strip] leaves has none of the dropped characters at either end. *)
Lemma strip_ends drop s :
  (forall c, first_char (strip drop s) = Some c -> drop c = false) /\
  (forall c, last_char (strip drop s) = Some c -> drop c = false).
Proof.
  unfold strip. split; intros c Hc.
  - apply rstrip_first in Hc. eapply lstrip_first. exact Hc.
  - eapply rstrip_last. exact Hc.
Qed.

(** X4: the keys of the table are the first tokens of the lines with the
    colons at both ends taken off: a key holds no whitespace and neither
    starts nor ends with a colon. *)
Theorem table_keys_clean text table key :
  get_irq_statistics text = Some (Ok table) ->
  key ∈ dict_keys table ->
  no_space key = true /\
  first_char key <> Some ":"%char /\ last_char key <> Some ":"%char.
Proof.
  intros Hget Hkey. apply dict_keys_entry in Hkey as [vec Hin].
  destruct (table_entry_line _ _ _ _ Hget Hin) as (line & _ & Hparse).
  apply parse_line_name in Hparse as (_ & _ & c0 & Hc0 & ->).
  destruct (strip_ends (Ascii.eqb ":") c0) as [Hfirst Hlast].
  split; [|split].
  - unfold strip. apply rstrip_no_space, lstrip_no_space.
    apply (split_tokens line). eapply list_elem_of_lookup_2. exact Hc0.
  - intros H. apply Hfirst in H. discriminate.
  - intros H. apply Hlast in H. discriminate.
Qed.

Lemma table_keys_clean_witness :
  no_space "NMI" = true /\
  first_char "NMI" <> Some ":"%char /\ last_char "NMI" <> Some ":"%char.
Proof.
  apply (table_keys_clean (nl "CPU0 CPU1" +:+ nl "::NMI:: 4 0") [("NMI", [4%Z])]).
  - vm_compute. reflexivity.
  - left.
Defined.

(** * Further properties of the sum per CPU *)

(** X5: when lines 158 to 163 run through, the result has one slot per
    processor, and slot [j] holds the sum, over the table, of the entries at
    [j] of the count sequences in which every other entry is zero. *)
Theorem exclusive_sum_total cpu_count text table load :
  get_irq_statistics text = Some (Ok table) ->
  main_irqs cpu_count text = Some (Ok load) ->
  length load = cpu_count /\
  forall j, j < cpu_count -> load !! j = Some (total_share table j).
Proof.
  intros Hget. unfold main_irqs. rewrite Hget. cbn [mbind res_bind].
  intros [= Hload]. apply exclusive_load_shares; [|exact Hload].
  eapply get_irq_statistics_nodup. exact Hget.
Qed.

Lemma exclusive_sum_total_witness :
  let text := nl "CPU0 CPU1 CPU2" +:+ nl "5: 4 0" +:+ nl "6: 0 3" +:+ nl "7: 2 0" +:+ nl "8: 1 1" in
  let table := [("5", [4; 0]); ("6", [0; 3]); ("7", [2; 0]); ("8", [1; 1])]%Z in
  length [6; 3; 0]%Z = 3 /\
  forall j, j < 3 -> [6; 3; 0]%Z !! j = Some (total_share table j).
Proof.
  intros text table. apply (exclusive_sum_total 3 text table [6; 3; 0]%Z).
  - vm_compute. reflexivity.
  - vm_compute. reflexivity.
Defined.

(** X6: on a machine with at least as many processors as the parser keeps
    count columns ([cpu_count - 1] of the header), lines 158 to 163 raise
    nothing for a table that parses, and the result has one slot per
    processor. *)
Theorem sum_runs_when_it_fits cpu_count text table :
  header_cpu_count text - 1 <= cpu_count ->
  get_irq_statistics text = Some (Ok table) ->
  exists load, main_irqs cpu_count text = Some (Ok load) /\ length load = cpu_count.
Proof.
  intros Hcount Hget. unfold main_irqs. rewrite Hget. cbn [mbind res_bind].
  unfold exclusive_load.
  destruct (for_loop_fits table (dict_keys table) (replicate cpu_count 0%Z))
    as (load & Hload & Hlen).
  - intros irq Hirq. destruct (dict_getitem_key _ _ Hirq) as (vec & Hvec & Hin).
    exists vec. split; [exact Hvec|].
    pose proof (stored_counts_length _ _ _ _ Hget Hin).
    rewrite length_replicate. lia.
  - exists load. rewrite length_replicate in Hlen. split; [rewrite Hload|]; auto.
Qed.

Lemma sum_runs_when_it_fits_witness :
  exists load, main_irqs 2 scenario_text = Some (Ok load) /\ length load = 2.
Proof.
  apply (sum_runs_when_it_fits 2 scenario_text
           [("16", [100; 0]); ("17", [0; 0])]%Z).
  - vm_compute. lia.
  - vm_compute. reflexivity.
Defined.

(** One pass either keeps the length of the array or raises [IndexError],
    the latter when the only entry that is not zero sits past the array. *)
Lemma for_body_outcome irqs irqs_per_cpu irq vec :
  dict_getitem irqs irq = Ok vec ->
  (exists irqs_per_cpu', for_body irqs irqs_per_cpu irq = Ok irqs_per_cpu' /\
     length irqs_per_cpu' = length irqs_per_cpu /\
     forall i v, only_nonzero vec i v -> i < length irqs_per_cpu) \/
  (for_body irqs irqs_per_cpu irq = Raise IndexError /\
   exists i v, only_nonzero vec i v /\ length irqs_per_cpu <= i).
Proof.
  intros Hget.
  destruct (Z.eq_dec (count_nonzero_values vec) 1%Z) as [Hcount|Hcount].
  - destruct (count_one_only_nonzero vec Hcount) as (i & v & Hindex & Hone).
    rewrite (for_body_count_one _ _ _ _ _ _ Hget Hone). unfold list_getitem.
    destruct (irqs_per_cpu !! i) as [old|] eqn:Hold; simpl.
    + left. eexists. split; [reflexivity|]. split; [apply length_insert|].
      intros i' v' Hone'. apply only_nonzero_count in Hone' as [_ Hindex'].
      assert (i' = i) as -> by congruence. eapply lookup_lt_Some. exact Hold.
    + right. split; [reflexivity|]. exists i, v. split; [exact Hone|].
      apply lookup_ge_None. exact Hold.
  - left. rewrite (for_body_count_other _ _ _ _ Hget Hcount).
    eexists. split; [reflexivity|]. split; [reflexivity|].
    intros i v Hone. apply only_nonzero_count in Hone as [Hone _]. contradiction.
Qed.

Lemma for_loop_index_error irqs entries : forall irqs_per_cpu irq vec i v,
  (forall k w, (k, w) ∈ entries -> dict_getitem irqs k = Ok w) ->
  (irq, vec) ∈ entries -> only_nonzero vec i v -> length irqs_per_cpu <= i ->
  for_loop irqs (dict_keys entries) irqs_per_cpu = Raise IndexError.
Proof.
  induction entries as [|[k w] entries IH]; intros acc irq vec i v Hget Hin Hone Hlen;
    [inversion Hin|].
  unfold dict_keys. rewrite fmap_cons. cbn [fst for_loop].
  destruct (for_body_outcome irqs acc k w (Hget k w ltac:(left)))
    as [(acc' & -> & Hacc & Hfits)|[-> _]]; [|reflexivity].
  cbn [mbind res_bind].
  apply elem_of_cons in Hin as [[= -> ->]|Hin].
  - specialize (Hfits i v Hone). lia.
  - apply (IH acc' irq vec i v); [|exact Hin|exact Hone|lia].
    intros k' w' Hk'. apply Hget. right. exact Hk'.
Qed.

(** X7: if a line of the parsed table has its only entry that is not zero
    at an index the array has no slot for (the machine has fewer processors
    than that), lines 158 to 163 raise [IndexError]; nothing is left of the
    sums of the other lines. *)
Theorem sum_index_error cpu_count text table irq vec i v :
  get_irq_statistics text = Some (Ok table) ->
  (irq, vec) ∈ table -> only_nonzero vec i v -> cpu_count <= i ->
  main_irqs cpu_count text = Some (Raise IndexError).
Proof.
  intros Hget Hin Hone Hlen. unfold main_irqs. rewrite Hget. cbn [mbind res_bind].
  f_equal. unfold exclusive_load.
  apply (for_loop_index_error table table _ irq vec i v); [|exact Hin|exact Hone|].
  - intros k w. apply dict_getitem_nodup.
    eapply get_irq_statistics_nodup. exact Hget.
  - rewrite length_replicate. exact Hlen.
Qed.

Lemma sum_index_error_witness :
  main_irqs 1 (nl "CPU0 CPU1 CPU2" +:+ nl "5: 4 0" +:+ nl "6: 0 3")
    = Some (Raise IndexError).
Proof.
  apply (sum_index_error 1 _ [("5", [4; 0]); ("6", [0; 3])]%Z "6" [0; 3]%Z 1 3%Z).
  - vm_compute. reflexivity.
  - right. left.
  - split; [reflexivity|]. split; [discriminate|].
    intros [|[|j]] w [= <-] Hw; try reflexivity; contradiction.
  - lia.
Defined.

Lemma total_share_short (irqs : dict) j :
  (forall irq vec, (irq, vec) ∈ irqs -> length vec <= j) ->
  total_share irqs j = 0%Z.
Proof.
  induction irqs as [|[k w] irqs IH]; intros Hshort; [reflexivity|].
  rewrite total_share_cons, IH.
  - unfold share. rewrite (lookup_ge_None_2 w j); [reflexivity|].
    apply (Hshort k w). left.
  - intros irq vec Hin. apply (Hshort irq vec). right. exact Hin.
Qed.

(** X8: the parser keeps no count for the last CPU of the header, so the
    slots from index [cpu_count - 1] of the header on stay zero whatever
    the text says: on a machine with as many processors as the header has
    labels, interrupts handled by the last processor are never counted. *)
Theorem last_cpu_slot_zero cpu_count text load j :
  main_irqs cpu_count text = Some (Ok load) ->
  header_cpu_count text - 1 <= j -> j < cpu_count ->
  load !! j = Some 0%Z.
Proof.
  unfold main_irqs. destruct (get_irq_statistics text) as [[table|e]|] eqn:Hget;
    cbn [mbind res_bind]; [|discriminate|discriminate].
  intros [= Hload] Hj Hcount.
  destruct (exclusive_load_shares cpu_count table load) as [_ Hslots];
    [eapply get_irq_statistics_nodup; exact Hget|exact Hload|].
  rewrite (Hslots j Hcount). f_equal. apply total_share_short.
  intros irq vec Hin. pose proof (stored_counts_length _ _ _ _ Hget Hin). lia.
Qed.

Lemma last_cpu_slot_zero_witness :
  [100; 0; 0]%Z !! 2 = Some 0%Z.
Proof.
  apply (last_cpu_slot_zero 3 scenario_text [100; 0; 0]%Z 2).
  - vm_compute. reflexivity.
  - vm_compute. lia.
  - lia.
Defined.

(** * Further properties of the vector helpers *)

(** X9: [count_nonzero_values] is the number of entries that are not zero;
    it lies between zero and the length of the vector. *)
Theorem count_nonzero_values_filter vec :
  count_nonzero_values vec = Z.of_nat (length (filter (fun x => x <> 0%Z) vec)) /\
  (0 <= count_nonzero_values vec <= Z.of_nat (length vec))%Z.
Proof.
  assert (count_nonzero_values vec
          = Z.of_nat (length (filter (fun x => x <> 0%Z) vec))) as Hcount.
  { induction vec as [|x vec IH]; [reflexivity|].
    rewrite count_nonzero_values_cons, IH, filter_cons.
    destruct (Z.eqb_spec x 0) as [->|Hx]; simpl.
    - destruct (decide (0%Z <> 0%Z)) as [H|_]; [contradiction|]. reflexivity.
    - destruct (decide (x <> 0%Z)) as [_|H]; [|contradiction]. simpl length. lia. }
  split; [exact Hcount|]. rewrite Hcount.
  pose proof (length_filter (fun x => x <> 0%Z) vec). lia.
Qed.

(** X10: [get_nonzero_index] returns the index of the first entry that is
    not zero, also when several entries are not zero: it returns [i]
    exactly when the entry at [i] is not zero and all entries in front of
    it are zero. *)
Theorem get_nonzero_index_first vec i :
  get_nonzero_index vec = Some i <->
  (exists v, vec !! i = Some v /\ v <> 0%Z) /\
  (forall j, j < i -> vec !! j = Some 0%Z).
Proof.
  revert i. induction vec as [|x vec IH]; intros i.
  - split; [discriminate|]. intros [(v & Hv & _) _]. destruct i; discriminate.
  - rewrite get_nonzero_index_cons. destruct (Z.eqb_spec x 0) as [->|Hx]; simpl.
    + destruct i as [|i].
      * split.
        -- destruct (get_nonzero_index vec); discriminate.
        -- intros [(v & [= <-] & Hv) _]. contradiction.
      * split.
        -- destruct (get_nonzero_index vec) as [k|] eqn:Hk; [|discriminate].
           intros [= <-]. pose proof (proj1 (IH k) eq_refl) as [Hv Hzero].
           split; [exact Hv|]. intros [|j] Hj; [reflexivity|].
           simpl. apply Hzero. lia.
        -- intros [Hv Hzero].
           assert (get_nonzero_index vec = Some i) as ->; [|reflexivity].
           apply IH. split; [exact Hv|]. intros j Hj. apply (Hzero (S j)). lia.
    + split.
      * intros [= <-]. split; [eauto|]. intros j Hj. lia.
      * intros [_ Hzero]. destruct i as [|i]; [reflexivity|].
        specialize (Hzero 0 ltac:(lia)). simpl in Hzero. congruence.
Qed.

(** * Further properties of [read_one_line] *)

(** X11: [read_one_line] never returns [None]: what it returns is a line,
    the first line of the file with the whitespace at both ends taken off,
    so a line that neither starts nor ends with whitespace. *)
Theorem read_one_line_never_none (fs : filesystem) path r :
  read_one_line fs path = Ok r ->
  exists text line,
    fs path = Ok text /\ r = Some line /\ line = first_line text /\
    (forall c, first_char line = Some c -> isspace c = false) /\
    (forall c, last_char line = Some c -> isspace c = false).
Proof.
  destruct (fs path) as [text|e] eqn:Hfs.
  - rewrite (read_one_line_reads fs path text Hfs). intros [= <-].
    exists text, (first_line text). split; [reflexivity|].
    split; [reflexivity|]. split; [reflexivity|].
    apply strip_ends.
  - rewrite (read_one_line_raises fs path e Hfs). discriminate.
Qed.

Lemma read_one_line_never_none_witness :
  exists text line,
    (fun _ : string => Ok (nl "  /usr/sbin/irqbalance --foreground  ")) "/proc/42/cmdline"
      = Ok text /\
    Some "/usr/sbin/irqbalance --foreground" = Some line /\ line = first_line text /\
    (forall c, first_char line = Some c -> isspace c = false) /\
    (forall c, last_char line = Some c -> isspace c = false).
Proof.
  apply (read_one_line_never_none
           (fun _ => Ok (nl "  /usr/sbin/irqbalance --foreground  "))
           "/proc/42/cmdline").
  vm_compute. reflexivity.
Defined.

(** * Properties of [find_running_process_id] *)

Lemma str_starts_with_spec sub : forall s,
  str_starts_with sub s = true <-> exists after, s = sub +:+ after.
Proof.
  induction sub as [|a sub IH]; intros s; simpl.
  - split; [eauto|reflexivity].
  - destruct s as [|b s].
    + split; [discriminate|]. intros [after H]. discriminate.
    + rewrite andb_true_iff, IH, Ascii.eqb_eq. split.
      * intros [-> [after ->]]. eauto.
      * intros [after [= -> ->]]. eauto.
Qed.

Lemma contains_cons sub c s :
  contains (String c s) sub <->
  str_starts_with sub (String c s) = true \/ contains s sub.
Proof.
  rewrite str_starts_with_spec. unfold contains. split.
  - intros ([|b before] & after & H); simpl in H.
    + left. eauto.
    + right. injection H as _ ->. eauto.
  - intros [[after ->]|(before & after & ->)].
    + exists "", after. reflexivity.
    + exists (String c before), after. reflexivity.
Qed.

Lemma str_find_from_found sub s : forall index,
  str_find_from index s sub <> (-1)%Z -> contains s sub.
Proof.
  induction s as [|c s IH]; intros index; cbn [str_find_from].
  - destruct (str_starts_with sub "") eqn:Hsw; [|contradiction].
    intros _. apply str_starts_with_spec in Hsw as [after ->].
    exists "", after. reflexivity.
  - intros Hfound. apply contains_cons.
    destruct (str_starts_with sub (String c s)); [left; reflexivity|].
    right. eapply IH. exact Hfound.
Qed.

Lemma str_find_from_missing sub s : forall index,
  (0 <= index)%Z -> str_find_from index s sub = (-1)%Z -> ~ contains s sub.
Proof.
  induction s as [|c s IH]; intros index Hindex; cbn [str_find_from].
  - destruct (str_starts_with sub "") eqn:Hsw; [lia|].
    intros _ (before & after & H).
    destruct before; [|discriminate]. destruct sub; [discriminate|discriminate].
  - rewrite contains_cons.
    destruct (str_starts_with sub (String c s)); [lia|].
    intros Hmissing [H|H]; [discriminate|].
    exact (IH (index + 1)%Z ltac:(lia) Hmissing H).
Qed.

(** [str_find] returns -1 exactly when [sub] does not occur in [s]. *)
Lemma str_find_spec s sub : str_find s sub = (-1)%Z <-> ~ contains s sub.
Proof.
  unfold str_find. split; [apply str_find_from_missing; lia|].
  intros Hno. destruct (Z.eq_dec (str_find_from 0 s sub) (-1)%Z) as [H|H];
    [exact H|].
  exfalso. apply Hno. eapply str_find_from_found. exact H.
Qed.

Lemma for_pid_step_numeric fs name pid listing text :
  re_match_digits pid = true -> fs (cmdline_path pid) = Ok text ->
  for_pid fs name (pid :: listing) =
    if negb (str_find (first_line text) name =? -1)%Z
    then pid_number ← lift (int_stripping pid); Done (Some pid_number)
    else for_pid fs name listing.
Proof.
  intros Hpid Hfs. cbn [for_pid]. rewrite Hpid.
  rewrite (read_one_line_reads fs _ text Hfs). reflexivity.
Qed.

Lemma for_pid_passes fs name before : forall rest,
  Forall (passed_by fs name) before ->
  for_pid fs name (before ++ rest) = for_pid fs name rest.
Proof.
  induction before as [|p before IH]; intros rest Hall; [reflexivity|].
  inversion Hall as [|? ? Hp Hrest]; subst. rewrite <- app_comm_cons.
  destruct (re_match_digits p) eqn:Hnum.
  - destruct (Hp Hnum) as (text & Hfs & Hno).
    rewrite (for_pid_step_numeric _ _ _ _ text Hnum Hfs).
    apply str_find_spec in Hno. rewrite Hno. simpl. apply IH, Hrest.
  - cbn [for_pid]. rewrite Hnum. apply IH, Hrest.
Qed.

Lemma digit_not_int_space c : is_digit c = true -> int_space c = false.
Proof. destruct c as [[] [] [] [] [] [] [] []]; try discriminate; reflexivity. Qed.

Lemma strip_keeps_first drop c s :
  drop c = false -> exists r, strip drop (String c s) = String c r.
Proof.
  intros Hc. unfold strip. simpl lstrip. rewrite Hc. simpl rstrip.
  rewrite Hc, andb_false_r. eauto.
Qed.

(** The number of an entry made of digits: not negative, unless [int]
    refuses the entry for its length. *)
Lemma int_stripping_digits pid :
  re_match_digits pid = true ->
  (exists n, int_stripping pid = Ok n /\ (0 <= n)%Z) \/
  int_stripping pid = Raise (ValueError pid).
Proof.
  destruct pid as [|c pid]; [discriminate|]. simpl.
  intros Hmatch. apply andb_true_iff in Hmatch as [Hc _].
  destruct (strip_keeps_first int_space c pid (digit_not_int_space c Hc)) as [r Hr].
  unfold int_stripping. rewrite Hr.
  destruct (int_opt (String c r)) as [n|] eqn:Hint; [|right; reflexivity].
  left. exists n. split; [reflexivity|].
  destruct (Z.lt_ge_cases n 0) as [Hneg|Hpos]; [|exact Hpos].
  destruct (int_opt_negative _ _ Hint Hneg) as [x' [= -> _]]. discriminate.
Qed.

(** X12: [find_running_process_id] returns the number of the first entry of
    the listing, in the order of the listing, that is made of digits and
    whose command line holds [name] in its first line, provided the command
    lines of the numeric entries in front of it can be read. *)
Theorem find_first_match fs name before pid after text :
  Forall (passed_by fs name) before ->
  re_match_digits pid = true ->
  fs (cmdline_path pid) = Ok text ->
  contains (first_line text) name ->
  find_running_process_id (Ok (before ++ pid :: after)) fs name =
    (pid_number ← lift (int_stripping pid); Done (Some pid_number)).
Proof.
  intros Hbefore Hpid Hfs Hname. unfold find_running_process_id.
  cbn [lift mbind run_bind]. rewrite (for_pid_passes _ _ _ _ Hbefore).
  rewrite (for_pid_step_numeric _ _ _ _ text Hpid Hfs).
  destruct (Z.eqb_spec (str_find (first_line text) name) (-1)) as [Hminus|_];
    [|reflexivity].
  apply str_find_spec in Hminus. contradiction.
Qed.

Lemma find_first_match_witness :
  let fs : filesystem := fun path =>
    if String.eqb path "/proc/42/cmdline" then Ok (nl "/usr/sbin/irqbalance --foreground")
    else if String.eqb path "/proc/7/cmdline" then Ok "" else Raise OSError in
  find_running_process_id (Ok ["self"; "7"; "42"; "43"]) fs "irqbalance" = Done (Some 42%Z).
Proof.
  intros fs.
  apply (find_first_match fs "irqbalance" ["self"; "7"] "42" ["43"]
           (nl "/usr/sbin/irqbalance --foreground")).
  - constructor; [intros H; discriminate H|]. constructor; [|constructor].
    intros _. exists "". split; [reflexivity|].
    apply str_find_spec. reflexivity.
  - reflexivity.
  - reflexivity.
  - exists "/usr/sbin/", " --foreground". reflexivity.
Defined.

(** X13: [find_running_process_id] returns [None] exactly when the loop
    passes by every entry of the listing: each entry is either not made of
    digits, or its command line can be read and does not hold [name]. *)
Theorem find_none_iff listing fs name :
  find_running_process_id (Ok listing) fs name = Done None <->
  Forall (passed_by fs name) listing.
Proof.
  unfold find_running_process_id. cbn [lift mbind run_bind]. split.
  - induction listing as [|p listing IH]; [constructor|].
    destruct (re_match_digits p) eqn:Hnum.
    + destruct (fs (cmdline_path p)) as [text|e] eqn:Hfs.
      * rewrite (for_pid_step_numeric _ _ _ _ text Hnum Hfs).
        destruct (Z.eqb_spec (str_find (first_line text) name) (-1)) as [Hminus|_];
          simpl.
        -- intros Hrest. constructor; [|apply IH, Hrest].
           intros _. exists text. split; [exact Hfs|].
           apply str_find_spec. exact Hminus.
        -- destruct (int_stripping p); discriminate.
      * cbn [for_pid]. rewrite Hnum, (read_one_line_raises fs _ e Hfs).
        discriminate.
    + cbn [for_pid]. rewrite Hnum. intros Hrest.
      constructor; [|apply IH, Hrest]. intros H. congruence.
  - intros Hall. rewrite <- (app_nil_r listing).
    rewrite (for_pid_passes _ _ _ _ Hall). reflexivity.
Qed.

(** X14: if the command line of a numeric entry cannot be read (the process
    ended after the listing was taken, say) and the loop passes by all
    entries in front of it, [find_running_process_id] does not go on to
    the next entry: it raises [NameError]. *)
Theorem find_unreadable_entry fs name before pid after e :
  Forall (passed_by fs name) before ->
  re_match_digits pid = true ->
  fs (cmdline_path pid) = Raise e ->
  find_running_process_id (Ok (before ++ pid :: after)) fs name =
    Stop (uncaught (NameError "e")).
Proof.
  intros Hbefore Hpid Hfs. unfold find_running_process_id.
  cbn [lift mbind run_bind]. rewrite (for_pid_passes _ _ _ _ Hbefore).
  cbn [for_pid]. rewrite Hpid, (read_one_line_raises fs _ e Hfs). reflexivity.
Qed.

Lemma find_unreadable_entry_witness :
  let fs : filesystem := fun path =>
    if String.eqb path "/proc/42/cmdline" then Ok (nl "/usr/sbin/irqbalance")
    else Raise OSError in
  find_running_process_id (Ok ["self"; "7"; "42"]) fs "irqbalance" =
    Stop (uncaught (NameError "e")).
Proof.
  intros fs.
  apply (find_unreadable_entry fs "irqbalance" ["self"] "7" ["42"] OSError).
  - constructor; [intros H; discriminate H|constructor].
  - reflexivity.
  - reflexivity.
Defined.

Lemma for_pid_outcomes fs name listing :
  (exists r, for_pid fs name listing = Done r /\
     forall n, r = Some n ->
       (0 <= n)%Z /\
       exists pid, pid ∈ listing /\ re_match_digits pid = true /\
         int_stripping pid = Ok n) \/
  for_pid fs name listing = Stop (uncaught (NameError "e")) \/
  (exists pid, pid ∈ listing /\ re_match_digits pid = true /\
     for_pid fs name listing = Stop (uncaught (ValueError pid))).
Proof.
  induction listing as [|p listing IH].
  - left. exists None. split; [reflexivity|]. discriminate.
  - assert ((exists r, for_pid fs name listing = Done r /\
               forall n, r = Some n ->
                 (0 <= n)%Z /\
                 exists pid, pid ∈ p :: listing /\ re_match_digits pid = true /\
                   int_stripping pid = Ok n) \/
            for_pid fs name listing = Stop (uncaught (NameError "e")) \/
            (exists pid, pid ∈ p :: listing /\ re_match_digits pid = true /\
               for_pid fs name listing = Stop (uncaught (ValueError pid)))) as Hrest.
    { destruct IH as [(r & Hr & Hn)|[Hname|(pid & Hin & Hnum & Hpid)]].
      - left. exists r. split; [exact Hr|]. intros n Hrn.
        destruct (Hn n Hrn) as (Hpos & pid & Hin & Hnum & Hint).
        split; [exact Hpos|]. exists pid. split; [right; exact Hin|]. auto.
      - right. left. exact Hname.
      - right. right. exists pid. split; [right; exact Hin|]. auto. }
    destruct (re_match_digits p) eqn:Hnum;
      [|cbn [for_pid]; rewrite Hnum; exact Hrest].
    destruct (fs (cmdline_path p)) as [text|e] eqn:Hfs.
    + rewrite (for_pid_step_numeric _ _ _ _ text Hnum Hfs).
      destruct (negb _); [|exact Hrest].
      destruct (int_stripping_digits p Hnum) as [(n & Hint & Hpos)|Hint];
        rewrite Hint; cbn [lift mbind run_bind].
      * left. exists (Some n). split; [reflexivity|]. intros n' [= <-].
        split; [exact Hpos|]. exists p. split; [left|]. auto.
      * right. right. exists p. split; [left|]. auto.
    + right. left. cbn [for_pid].
      rewrite Hnum, (read_one_line_raises fs _ e Hfs). reflexivity.
Qed.

(** X15: whatever the listing and the files, [find_running_process_id]
    ends in one of four ways: it returns [None] or a number that is not
    negative, the number of a numeric entry of the listing; it raises the
    [NameError] of [read_one_line]; it raises the [ValueError] of [int] on
    a numeric entry (one with more digits than [int] takes); or it raises
    what [os.listdir] raised.  It never gets to call [find] on [None]. *)
Theorem find_outcomes listdir fs name :
  (exists r, find_running_process_id listdir fs name = Done r /\
     forall n, r = Some n ->
       (0 <= n)%Z /\
       exists listing pid, listdir = Ok listing /\ pid ∈ listing /\
         re_match_digits pid = true /\ int_stripping pid = Ok n) \/
  find_running_process_id listdir fs name = Stop (uncaught (NameError "e")) \/
  (exists listing pid, listdir = Ok listing /\ pid ∈ listing /\
     re_match_digits pid = true /\
     find_running_process_id listdir fs name = Stop (uncaught (ValueError pid))) \/
  (exists e, listdir = Raise e /\
     find_running_process_id listdir fs name = Stop (uncaught e)).
Proof.
  destruct listdir as [listing|e]; unfold find_running_process_id;
    cbn [lift mbind run_bind]; [|right; right; right; eauto].
  destruct (for_pid_outcomes fs name listing)
    as [(r & Hr & Hn)|[Hname|(pid & Hin & Hnum & Hpid)]].
  - left. exists r. split; [exact Hr|]. intros n Hrn.
    destruct (Hn n Hrn) as (Hpos & pid & Hin & Hnum & Hint).
    split; [exact Hpos|]. exists listing, pid. auto.
  - right. left. exact Hname.
  - right. right. left. exists listing, pid. auto.
Qed.

Lemma for_pid_ext fs fs' name listing :
  (forall pid, pid ∈ listing -> re_match_digits pid = true ->
     fs (cmdline_path pid) = fs' (cmdline_path pid)) ->
  for_pid fs name listing = for_pid fs' name listing.
Proof.
  induction listing as [|p listing IH]; intros Hsame; [reflexivity|].
  cbn [for_pid]. rewrite IH by (intros pid Hin; apply Hsame; right; exact Hin).
  destruct (re_match_digits p) eqn:Hnum; [|reflexivity].
  unfold read_one_line. rewrite (Hsame p ltac:(left) Hnum). reflexivity.
Qed.

(** X16: [find_running_process_id] reads the command lines of the entries
    made of digits and no other file: two file systems that agree on those
    paths give the same result. *)
Theorem find_reads_numeric_only listdir fs fs' name :
  (forall listing pid, listdir = Ok listing -> pid ∈ listing ->
     re_match_digits pid = true ->
     fs (cmdline_path pid) = fs' (cmdline_path pid)) ->
  find_running_process_id listdir fs name =
    find_running_process_id listdir fs' name.
Proof.
  intros Hsame. destruct listdir as [listing|e]; [|reflexivity].
  unfold find_running_process_id. cbn [lift mbind run_bind].
  apply for_pid_ext. intros pid. apply Hsame. reflexivity.
Qed.

Lemma find_reads_numeric_only_witness :
  find_running_process_id (Ok ["self"; "cpuinfo"; "42"])
    (fun path => if String.eqb path "/proc/42/cmdline" then Ok "sh" else Raise OSError)
    "irqbalance" =
  find_running_process_id (Ok ["self"; "cpuinfo"; "42"]) (fun _ => Ok "sh") "irqbalance".
Proof.
  apply find_reads_numeric_only.
  intros listing pid [= <-] Hin Hnum.
  repeat (apply elem_of_cons in Hin as [->|Hin]; [try discriminate Hnum; reflexivity|]).
  inversion Hin.
Defined.

(** * Further properties of the marker scan *)




(** * Properties of the script as a whole *)

Lemma keeps_icons_say line : has_icon line -> keeps_icons (say line).
Proof.
  intros Hline out Hout. unfold say, print. cbn [fst].
  apply Forall_app. split; [exact Hout|]. constructor; [exact Hline|constructor].
Qed.

Lemma keeps_icons_quiet {A : Type} (r : run A) : keeps_icons (of_run r).
Proof. intros out Hout. exact Hout. Qed.

Lemma keeps_icons_stop {A : Type} (s : stop) : keeps_icons (@stop_with A s).
Proof. intros out Hout. exact Hout. Qed.

Lemma keeps_icons_ret {A : Type} (a : A) : keeps_icons (mret a : script A).
Proof. intros out Hout. exact Hout. Qed.

Lemma keeps_icons_bind {A B : Type} (m : script A) (k : A -> script B) :
  keeps_icons m -> (forall a, keeps_icons (k a)) -> keeps_icons (m ≫= k).
Proof.
  intros Hm Hk out Hout. unfold mbind, script_bind.
  specialize (Hm out Hout). destruct (m out) as [out' [a|s]]; cbn [fst] in *.
  - apply Hk. exact Hm.
  - exact Hm.
Qed.

Lemma has_icon_ok rest : has_icon (OK_ICON +:+ rest).
Proof. exists rest. auto. Qed.

Lemma has_icon_fail rest : has_icon (FAIL_ICON +:+ rest).
Proof. exists rest. auto. Qed.

Lemma has_icon_info rest : has_icon (INFO_ICON +:+ rest).
Proof. exists rest. auto. Qed.

Lemma has_icon_skip rest : has_icon (SKIP_ICON +:+ rest).
Proof. exists rest. auto. Qed.

Lemma scan_markers_icons mem markers :
  Forall has_icon (scan_markers mem markers []).
Proof.
  induction markers as [|marker markers IH]; [constructor|].
  cbn [scan_markers]. rewrite scan_markers_app.
  destruct (_ =? _)%Z; (constructor; [|exact IH]);
    [apply has_icon_fail|apply has_icon_ok].
Qed.

Lemma keeps_icons_markers w : keeps_icons (check_markers w).
Proof.
  intros out Hout. unfold check_markers.
  assert (Forall has_icon (scan_step (os_open_executable w) MARKERS out).1) as H.
  { unfold scan_step, print.
    destruct (os_open_executable w) as [e|[|fd] [|b content]|[|fd]]; cbn [fst mmap].
    - repeat (apply Forall_app; split); [exact Hout| |];
        (constructor; [|constructor]); [apply has_icon_fail|apply has_icon_skip].
    - apply Forall_app. split; [exact Hout|].
      constructor; [apply has_icon_skip|constructor].
    - apply Forall_app. split; [exact Hout|].
      constructor; [apply has_icon_skip|constructor].
    - exact Hout.
    - rewrite scan_markers_app. apply Forall_app.
      split; [exact Hout|apply scan_markers_icons].
    - apply Forall_app. split; [exact Hout|].
      constructor; [apply has_icon_skip|constructor].
    - exact Hout. }
  destruct (scan_step (os_open_executable w) MARKERS out) as [out' [e|]];
    exact H.
Qed.

Lemma keeps_icons_report w : keeps_icons (report w).
Proof.
  unfold report. apply keeps_icons_bind.
  { unfold report_cpu_count. destruct (os_cpu_count w); [|apply keeps_icons_stop].
    apply keeps_icons_bind; [|intros; apply keeps_icons_ret].
    apply keeps_icons_say, has_icon_info. }
  intros cpu_count. apply keeps_icons_bind.
  { unfold check_executable. destruct (access_x_ok w); apply keeps_icons_say;
      [apply has_icon_ok|apply has_icon_fail]. }
  intros _. apply keeps_icons_bind.
  { unfold check_version, report_version. destruct (os_popen w) as [fd|e].
    - apply keeps_icons_bind; [apply keeps_icons_quiet|]. intros text.
      destruct (pipe_close fd).
      + apply keeps_icons_bind; [apply keeps_icons_quiet|].
        intros code. apply keeps_icons_say, has_icon_fail.
      + apply keeps_icons_say, has_icon_ok.
    - apply keeps_icons_bind; [|intros; apply keeps_icons_stop].
      apply keeps_icons_say, has_icon_fail. }
  intros _. apply keeps_icons_bind.
  { unfold check_service. destruct (access_r_ok w); apply keeps_icons_say;
      [apply has_icon_ok|apply has_icon_fail]. }
  intros _. apply keeps_icons_bind; [apply keeps_icons_markers|].
  intros _. apply keeps_icons_bind; [|intros; apply keeps_icons_ret].
  unfold check_running. apply keeps_icons_bind; [apply keeps_icons_quiet|].
  intros [[|pid|pid]|]; apply keeps_icons_say;
    first [apply has_icon_ok|apply has_icon_info].
Qed.

Lemma main_irqs_some cpu_count text : exists r, main_irqs cpu_count text = Some r.
Proof.
  unfold main_irqs. rewrite get_irq_statistics_rows. eauto.
Qed.

(** The script gets to its end or is stopped; what it has printed by then
    is what lines 104 to 156 printed. *)
Lemma main_report w :
  exists ending, main w = Some ((report w []).1, ending).
Proof.
  unfold main. destruct (report w []) as [out [cpu_count|s]]; cbn [fst]; [|eauto].
  destruct (proc_interrupts w) as [text|e]; [|eauto].
  destruct (main_irqs_some cpu_count text) as [[load|e] ->]; eauto.
Qed.

(** X18: every line the script prints, whatever it finds on the machine and
    whatever stops it, starts with one of the four tags [[ OK ]], [[FAIL]],
    [[INFO]] and [[SKIP]]. *)
Theorem main_prints_tagged_lines w out ending :
  main w = Some (out, ending) -> Forall has_icon out.
Proof.
  destruct (main_report w) as [ending' ->]. intros [= <- _].
  apply keeps_icons_report. constructor.
Qed.

Lemma main_prints_tagged_lines_witness :
  Forall has_icon
    [ "[INFO] processor count: 4";
      "[ OK ] /usr/sbin/irqbalance exists and is executable";
      "[ OK ] /usr/sbin/irqbalance --version returns 'irqbalance version 1.9.2'";
      "[ OK ] /usr/lib/systemd/system/irqbalance.service exists and is readable";
      "[FAIL] marker 'libcap-ng.so.0' not found in the irqbalance executable";
      "[FAIL] marker 'libnuma.so.1' not found in the irqbalance executable";
      "[FAIL] marker '/sys/devices/system/cpu' not found in the irqbalance executable";
      "[FAIL] marker '%s/topology/core_siblings' not found in the irqbalance executable";
      "[FAIL] marker '/proc/interrupts' not found in the irqbalance executable";
      "[FAIL] marker '/proc/irq/%i/node' not found in the irqbalance executable";
      "[FAIL] marker 'g_main_loop_run' not found in the irqbalance executable";
      "[FAIL] marker 'g_list_append' not found in the irqbalance executable";
      "[ OK ] marker 'irqbalance' found in the irqbalance executable";
      "[ OK ] irqbalance currently running (PID 42)" ].
Proof.
  apply (main_prints_tagged_lines healthy_world _ None).
  vm_compute. reflexivity.
Defined.

(** X19: what the script prints does not depend on [/proc/interrupts]:
    with another content of that file, or with the file unreadable, the
    same lines are printed, and only the way the script ends may differ.
    The sums of lines 158 to 163 are never shown. *)
Theorem main_ignores_interrupts w interrupts out ending :
  main w = Some (out, ending) ->
  exists ending', main (with_interrupts w interrupts) = Some (out, ending').
Proof.
  destruct (main_report w) as [ending0 Hmain].
  destruct (main_report (with_interrupts w interrupts)) as [ending' Hmain'].
  rewrite Hmain. intros [= <- _]. exists ending'. exact Hmain'.
Qed.

Lemma main_ignores_interrupts_witness :
  exists ending',
    main (with_interrupts healthy_world (Raise OSError))
      = Some (healthy_report, ending').
Proof.
  apply (main_ignores_interrupts healthy_world (Raise OSError) healthy_report None).
  vm_compute. reflexivity.
Defined.

Lemma stops_in_bind {A B : Type} P (m : script A) (k : A -> script B) :
  stops_in P m -> (forall a, stops_in P (k a)) -> stops_in P (m ≫= k).
Proof.
  intros Hm Hk out out' s. unfold mbind, script_bind.
  destruct (m out) as [out1 [a|s1]] eqn:Hmout.
  - apply Hk.
  - intros [= _ <-]. eapply Hm. exact Hmout.
Qed.

Lemma stops_in_say P line : stops_in P (say line).
Proof. intros out out' s. discriminate. Qed.

Lemma stops_in_ret {A : Type} P (a : A) : stops_in P (mret a : script A).
Proof. intros out out' s. discriminate. Qed.

Lemma stops_in_run {A : Type} (P : stop -> Prop) (r : run A) :
  (forall s, r = Stop s -> P s) -> stops_in P (of_run r).
Proof. intros Hr out out' s [= _ Hs]. apply Hr, Hs. Qed.

Lemma waitstatus_not_exit status s :
  waitstatus_to_exitcode status = Stop s -> not_exit s.
Proof.
  unfold waitstatus_to_exitcode.
  repeat match goal with |- context [if ?b then _ else _] => destruct b end;
    intros [= <-] code; discriminate.
Qed.

Lemma find_not_exit listdir fs name s :
  find_running_process_id listdir fs name = Stop s -> not_exit s.
Proof.
  destruct listdir as [listing|e]; unfold find_running_process_id;
    cbn [lift mbind run_bind]; [|intros [= <-] code; discriminate].
  destruct (for_pid_outcomes fs name listing)
    as [(r & -> & _)|[->|(pid & _ & _ & ->)]];
    [discriminate|intros [= <-] code; discriminate..].
Qed.

Lemma stops_in_weaken {A : Type} (P Q : stop -> Prop) (m : script A) :
  (forall s, P s -> Q s) -> stops_in P m -> stops_in Q m.
Proof. intros HPQ Hm out out' s Hs. eapply HPQ, Hm, Hs. Qed.

Lemma check_executable_not_exit w : stops_in not_exit (check_executable w).
Proof. unfold check_executable. destruct (access_x_ok w); apply stops_in_say. Qed.

Lemma check_service_not_exit w : stops_in not_exit (check_service w).
Proof. unfold check_service. destruct (access_r_ok w); apply stops_in_say. Qed.

Lemma check_markers_not_exit w : stops_in not_exit (check_markers w).
Proof.
  intros out out' s. unfold check_markers.
  destruct (scan_step _ _ _) as [o [e|]]; intros [= _ <-] code; discriminate.
Qed.

Lemma check_running_not_exit w : stops_in not_exit (check_running w).
Proof.
  unfold check_running. apply stops_in_bind.
  - apply stops_in_run. intros s. apply find_not_exit.
  - intros [[|pid|pid]|]; apply stops_in_say.
Qed.

Lemma report_version_not_exit fd : stops_in not_exit (report_version fd).
Proof.
  unfold report_version. apply stops_in_bind.
  - apply stops_in_run. intros s. destruct (pipe_output fd); simpl;
      [discriminate|intros [= <-] code; discriminate].
  - intros text. destruct (pipe_close fd); [|apply stops_in_say].
    apply stops_in_bind; [|intros; apply stops_in_say].
    apply stops_in_run. intros s. apply waitstatus_not_exit.
Qed.

(** When the processor count is known, [exit] can only come from the
    handler of [os.popen]. *)
Lemma report_exit w :
  stops_in (fun s => forall code, s = system_exit code ->
              code = 1%Z /\ os_cpu_count w <> None /\ exists e, os_popen w = Raise e)
    (report w).
Proof.
  unfold report, report_cpu_count. destruct (os_cpu_count w) as [n|].
  2:{ intros out out' s [= _ <-] code. discriminate. }
  assert (forall s, not_exit s ->
            forall code, s = system_exit code ->
              code = 1%Z /\ Some n <> None /\ exists e, os_popen w = Raise e)
    as Hweak by (intros s Hs code ->; destruct (Hs code eq_refl)).
  apply stops_in_bind.
  { apply stops_in_bind; [apply stops_in_say|intros; apply stops_in_ret]. }
  intros cpu_count. apply stops_in_bind.
  { eapply stops_in_weaken; [exact Hweak|apply check_executable_not_exit]. }
  intros _. apply stops_in_bind.
  { unfold check_version. destruct (os_popen w) as [fd|e] eqn:Hpopen.
    - eapply stops_in_weaken; [exact Hweak|apply report_version_not_exit].
    - intros out out' s. unfold mbind, script_bind, say, stop_with.
      intros [= _ <-] code [= <-]. split; [reflexivity|]. split; [discriminate|eauto]. }
  intros _. apply stops_in_bind.
  { eapply stops_in_weaken; [exact Hweak|apply check_service_not_exit]. }
  intros _. apply stops_in_bind.
  { eapply stops_in_weaken; [exact Hweak|apply check_markers_not_exit]. }
  intros _. apply stops_in_bind; [|intros; apply stops_in_ret].
  eapply stops_in_weaken; [exact Hweak|apply check_running_not_exit].
Qed.

(** X20: the script ends by [exit] in one case only, with status 1: when
    [os.popen] raises (the processor count being known).  No other failed
    check, and no exception, makes it call [exit]. *)
Theorem main_exit_status w code :
  (exists out, main w = Some (out, Some (system_exit code))) <->
  code = 1%Z /\ os_cpu_count w <> None /\ exists e, os_popen w = Raise e.
Proof.
  split.
  - intros [out Hmain]. unfold main in Hmain.
    destruct (report w []) as [out' [cpu_count|s]] eqn:Hreport.
    + destruct (proc_interrupts w); [|discriminate].
      destruct (main_irqs cpu_count _) as [[|]|]; discriminate.
    + injection Hmain as _ ->. eapply (report_exit w); [exact Hreport|reflexivity].
  - intros (-> & Hcount & e & Hpopen).
    destruct (os_cpu_count w) as [n|] eqn:Hn; [|contradiction].
    unfold main, report, report_cpu_count, check_version, check_executable.
    rewrite Hn, Hpopen. destruct (access_x_ok w); eexists; reflexivity.
Qed.

(** The status [fd.close()] makes of a return code is read back as a normal
    exit, with the return code modulo 256. *)
Lemma waitstatus_of_returncode rc :
  (- 2 ^ 23 <= rc < 2 ^ 23)%Z ->
  waitstatus_to_exitcode (Z.shiftl rc 8) = Done (rc mod 256)%Z.
Proof.
  intros Hrc. unfold waitstatus_to_exitcode.
  assert (Z.shiftl rc 8 = rc * 256)%Z as Hshift
    by (rewrite Z.shiftl_mul_pow2 by lia; reflexivity).
  assert (((Z.shiftl rc 8 <? - 2 ^ 31) || (2 ^ 31 <=? Z.shiftl rc 8))%Z = false)
    as ->.
  { rewrite Hshift. apply orb_false_iff. split; [apply Z.ltb_ge|apply Z.leb_gt]; lia. }
  assert (Z.land (Z.shiftl rc 8) 127 = 0%Z) as ->.
  { change 127%Z with (Z.ones 7). rewrite Z.land_ones by lia. rewrite Hshift.
    change (2 ^ 7)%Z with 128%Z. replace (rc * 256)%Z with (rc * 2 * 128)%Z by lia.
    apply Z.mod_mul. lia. }
  simpl Z.eqb. cbv iota. f_equal.
  rewrite Z.shiftr_land, Z.shiftr_shiftl_l by lia.
  change (Z.shiftr 65280 8) with (Z.ones 8). rewrite Z.land_ones by lia.
  rewrite Z.sub_diag, Z.shiftl_0_r. reflexivity.
Qed.

(** X21: when the version command ends with a return code other than 0,
    the script prints the line tagged [FAIL] with that code taken modulo
    256, so between 0 and 255: a command ended by signal 9, whose return
    code is -9, is reported with exit code 247. *)
Theorem report_version_exit_code fd text out :
  pipe_output fd = Ok text ->
  pipe_returncode fd <> 0%Z ->
  (- 2 ^ 23 <= pipe_returncode fd < 2 ^ 23)%Z ->
  report_version fd out =
    (out ++ [FAIL_ICON +:+ IRQBALANCE_PATH +:+ " --version failed with exit code "
             +:+ format_d (pipe_returncode fd mod 256)], Done tt) /\
  (0 <= pipe_returncode fd mod 256 < 256)%Z.
Proof.
  intros Htext Hrc Hrange. split; [|apply Z.mod_pos_bound; lia].
  unfold report_version, pipe_close. rewrite Htext.
  destruct (Z.eqb_spec (pipe_returncode fd) 0) as [|_]; [contradiction|].
  unfold mbind, script_bind, of_run, lift.
  rewrite (waitstatus_of_returncode _ Hrange). reflexivity.
Qed.

Lemma report_version_exit_code_witness :
  report_version {| pipe_output := Ok ""; pipe_returncode := -9 |} [] =
    (["[FAIL] /usr/sbin/irqbalance --version failed with exit code 247"], Done tt) /\
  (0 <= 247 < 256)%Z.
Proof.
  apply (report_version_exit_code {| pipe_output := Ok ""; pipe_returncode := -9 |} "" []).
  - reflexivity.
  - discriminate.
  - simpl. lia.
Defined.

(** * The sum per CPU over the table of the parser *)

Lemma for_loop_in_range irqs entries : forall irqs_per_cpu,
  (forall k w, (k, w) ∈ entries -> dict_getitem irqs k = Ok w) ->
  (forall k w i v, (k, w) ∈ entries -> only_nonzero w i v ->
     i < length irqs_per_cpu) ->
  exists load, for_loop irqs (dict_keys entries) irqs_per_cpu = Ok load.
Proof.
  induction entries as [|[k w] entries IH]; intros acc Hget Hrange;
    [simpl; eauto|].
  unfold dict_keys. rewrite fmap_cons. cbn [fst for_loop].
  destruct (for_body_outcome irqs acc k w (Hget k w ltac:(left)))
    as [(acc' & -> & Hacc & _)|[_ (i & v & Hone & Hlen)]].
  - cbn [mbind res_bind]. apply IH.
    + intros k' w' Hin. apply Hget. right. exact Hin.
    + intros k' w' i v Hin Hone. rewrite Hacc.
      apply (Hrange k' w' i v); [right; exact Hin|exact Hone].
  - specialize (Hrange k w i v ltac:(left) Hone). lia.
Qed.

(** C4, as the code has it: the loop of lines 160 to 163 over the whole
    table of the parser, on a machine whose processor count is above the
    index of the single entry that is not zero of every count sequence that
    has one (without that the loop raises [IndexError]).  The loop runs
    through, and every slot [j] of the result holds the sum of what the
    count sequences of the table give to it: a sequence with exactly one
    entry that is not zero gives the value of that entry to the slot at the
    index of the entry and nothing to the other slots; a sequence of zeros,
    or one with two or more entries that are not zero, gives nothing to
    any slot. *)
Theorem exclusive_counts_added cpu_count text table :
  get_irq_statistics text = Some (Ok table) ->
  (forall irq vec i v, (irq, vec) ∈ table -> only_nonzero vec i v -> i < cpu_count) ->
  exists load,
    main_irqs cpu_count text = Some (Ok load) /\
    length load = cpu_count /\
    (forall j, j < cpu_count -> load !! j = Some (total_share table j)) /\
    (forall vec i v, only_nonzero vec i v ->
       forall j, share vec j = if decide (i = j) then v else 0%Z) /\
    (forall vec, Forall (fun x => x = 0%Z) vec -> forall j, share vec j = 0%Z) /\
    (forall vec i i' a b, i <> i' ->
       vec !! i = Some a -> a <> 0%Z -> vec !! i' = Some b -> b <> 0%Z ->
       forall j, share vec j = 0%Z).
Proof.
  intros Hget Hrange.
  pose proof (get_irq_statistics_nodup _ _ Hget) as Hnodup.
  destruct (for_loop_in_range table table (replicate cpu_count 0%Z))
    as [load Hload].
  { intros k w. apply dict_getitem_nodup, Hnodup. }
  { intros k w i v Hin Hone. rewrite length_replicate. eapply Hrange; eassumption. }
  exists load.
  destruct (exclusive_load_shares cpu_count table load Hnodup Hload)
    as [Hlen Hslots].
  split; [unfold main_irqs; rewrite Hget; cbn [mbind res_bind];
          unfold exclusive_load; rewrite Hload; reflexivity|].
  split; [exact Hlen|]. split; [exact Hslots|]. split; [|split].
  - intros vec i v Hone j. apply share_only_nonzero. exact Hone.
  - intros vec Hzeros j. apply share_count_other.
    apply count_nonzero_values_zero in Hzeros. lia.
  - intros vec i i' a b Hii Ha Ha0 Hb Hb0 j. apply share_count_other.
    intros Hcount.
    destruct (count_one_only_nonzero vec Hcount) as (k & w & _ & _ & _ & Huniq).
    apply Hii. rewrite (Huniq i a Ha Ha0), (Huniq i' b Hb Hb0). reflexivity.
Qed.

Lemma exclusive_counts_added_witness :
  let text := nl "CPU0 CPU1 CPU2" +:+ nl "5: 4 0" +:+ nl "6: 0 3" +:+ nl "7: 2 0"
              +:+ nl "8: 1 1" +:+ nl "9: 0 0" in
  let table := [("5", [4; 0]); ("6", [0; 3]); ("7", [2; 0]); ("8", [1; 1]);
                ("9", [0; 0])]%Z in
  exists load,
    main_irqs 3 text = Some (Ok load) /\
    length load = 3 /\
    (forall j, j < 3 -> load !! j = Some (total_share table j)) /\
    (forall vec i v, only_nonzero vec i v ->
       forall j, share vec j = if decide (i = j) then v else 0%Z) /\
    (forall vec, Forall (fun x => x = 0%Z) vec -> forall j, share vec j = 0%Z) /\
    (forall vec i i' a b, i <> i' ->
       vec !! i = Some a -> a <> 0%Z -> vec !! i' = Some b -> b <> 0%Z ->
       forall j, share vec j = 0%Z).
Proof.
  intros text table. apply (exclusive_counts_added 3 text table).
  - vm_compute. reflexivity.
  - intros irq vec i v Hin [Hi _]. apply lookup_lt_Some in Hi.
    repeat (apply elem_of_cons in Hin as [Heq|Hin];
            [injection Heq as _ ->; simpl in Hi; lia|]).
    inversion Hin.
Defined.

(** C4 as stated fails where the array has no slot for the index: with
    header [CPU0 CPU1 CPU2] and the line [9: 0 7 0] on a machine with one
    processor, the only entry that is not zero sits at index 1 and the loop
    raises [IndexError] instead of adding 7 to a slot. *)
Lemma exclusive_count_without_slot :
  get_irq_statistics (nl "CPU0 CPU1 CPU2" +:+ nl "9: 0 7 0")
    = Some (Ok [("9", [0; 7]%Z)]) /\
  main_irqs 1 (nl "CPU0 CPU1 CPU2" +:+ nl "9: 0 7 0") = Some (Raise IndexError).
Proof. split; vm_compute; reflexivity. Qed.
